(** * Widget SDK: lifecycle, authorization, cache and retry flow

    A shallow embedding of the widget runtime of the SDK: the class
    [KoruWidget] and its predecessor [AppManagerWidget] (src/widget.ts).
    The two classes have the same methods and differ in four places: the
    preview override (Koru only), the authorization and analytics paths, the
    prefix of the cache key, and the way [handleError] renders the error for
    telemetry.  One model covers both, indexed by [Sdk].

    Conventions of the embedding.
    - A method of the class is a computation [M A]: it takes the mutable
      state (the fields of the instance and the browser around it) and
      gives an outcome (a value or a thrown value), the state it leaves and
      the list of observable events it emitted, oldest first.  [await] is
      sequencing: one call runs at a time.
    - The lifecycle hooks are supplied by the subclass; they are arbitrary
      functions on the state that return or throw.  The events are
      recorded by the runtime, so a hook cannot forge or erase them; what
      a hook does on its own account is seen in the state only.
    - JavaScript numbers are exact: a time stamp is an integer number of
      milliseconds, [retryAttempts], [retryDelay] and [cacheDuration] are
      integers, and the age of a cache entry is a rational.
    - A string kept in localStorage is represented by what [JSON.parse] and
      the destructuring [{ data, timestamp }] make of it ([Stored]).
    - A thrown value is represented by what the runtime can observe of it:
      whether it is an [Error], what reading its [message] gives and what
      [String(value)] gives; the read and the conversion can themselves
      throw.
    - Time passes while a call is suspended: at an awaited request, body,
      timer or [DOMContentLoaded].  How long a suspension lasts is given by
      the browser; a timer lasts at least its delay.  Code that runs without
      being suspended takes no time. *)

From stdpp Require Import base option list strings gmap pretty.
From Stdlib Require Import ZArith QArith Lia Ascii.

Local Close Scope Q_scope.
Local Open Scope Z_scope.
Local Open Scope string_scope.
Local Open Scope list_scope.

(** ** Data model (types.ts) *)

(** [any], as far as a configuration value is concerned. *)
Inductive JsValue :=
| JNull
| JBool (b : bool)
| JNum (n : Z)
| JStr (s : string).

(** [interface WidgetConfig { [key: string]: any }] *)
Abbreviation WidgetConfig := (gmap string JsValue).

Record AppInfo := {
  app_id : string;
  app_name : string;
  app_description : string
}.

Record WebsiteInfo := {
  website_id : string;
  website_url : string;
  is_ecommerce : bool;
  customer : string
}.

Record AuthResponse := {
  authorized : bool;
  config_of : WidgetConfig;
  token : string;
  app : AppInfo;
  website : WebsiteInfo
}.

(** The resolved options of the constructor (defaults merged with the
    caller's). *)
Record Options := {
  cache : bool;
  cacheDuration : Z;
  retryAttempts : Z;
  retryDelay : Z;
  analytics : bool;
  debug : bool
}.

Definition defaultOptions : Options :=
  {| cache := true; cacheDuration := 3600; retryAttempts := 3;
     retryDelay := 1000; analytics := false; debug := false |}.

(** A thrown value.  [ErrorObj message] is [new Error(message)].  Any other
    value is given by [error instanceof Error], by what the read
    [error.message] gives and by what [String(error)] gives.  [Missing]: the
    property is [undefined] (also for [null] and [undefined] themselves,
    under [?.]).  [Text s]: it is the string [s].  The read runs a getter and
    the conversion runs [toString], so either can throw: [String] of an
    object without a prototype throws a [TypeError]. *)
Inductive Thrown :=
| ErrorObj (message : string)
| Value (isError : bool) (message : Property) (rendering : Conversion)
with Property :=
| Missing
| Text (s : string)
| GetterThrows (e : Thrown)
with Conversion :=
| Renders (s : string)
| ConversionThrows (e : Thrown).

(** [!s] for a string. *)
Definition falsy (s : string) : bool :=
  match s with
  | "" => true
  | _ => false
  end.

(** [Error.prototype.toString] for an error of class [name]. *)
Definition errorString (name message : string) : string :=
  if decide (message = "") then name else name +:+ ": " +:+ message.

(** An instance of a subclass of [Error] that keeps the inherited
    [toString]. *)
Definition errorOf (name message : string) : Thrown :=
  Value true (Text message) (Renders (errorString name message)).

Definition typeError : string -> Thrown := errorOf "TypeError".
Definition referenceError : string -> Thrown := errorOf "ReferenceError".
Definition syntaxError : string -> Thrown := errorOf "SyntaxError".

(** ** The browser *)

(** What [JSON.parse] and [const { data, timestamp } = ...] make of a stored
    string.  [Blank]: the empty string, which is falsy.  [Unparseable]: the
    parse or the destructuring throws.
    [Parsed data timestamp]: [data] is [None] when the field is missing or
    falsy, [timestamp] is [None] when [Date.now() - timestamp] is NaN. *)
Inductive Stored :=
| Blank
| Unparseable
| Parsed (data : option AuthResponse) (timestamp : option Z).

(** What [response.json()] gives: a rejection with a [SyntaxError], or the
    parsed body, typed as the source types it. *)
Inductive Body :=
| BadJson (message : string)
| Json (data : AuthResponse).

(** The outcome of one [fetch]: the promise is rejected with a [TypeError]
    (a transport failure), or it resolves to a response with a status and a
    body. *)
Inductive FetchOutcome :=
| Rejected (message : string)
| Response (status : Z) (body : Body).

(** [response.ok] *)
Definition ok (status : Z) : bool :=
  ((200 <=? status)%Z && (status <=? 299)%Z)%bool.

Inductive ReadyState := Loading | Interactive | Complete.

Record Browser := {
  previewConfig : option WidgetConfig;   (* window.__KORU_PREVIEW_CONFIG__ *)
  origin : string;                       (* window.location.origin *)
  document : option ReadyState;          (* None: [document] is not defined *)
  localStorage : option (gmap string Stored); (* None: access throws *)
  quotaExceeded : bool;                  (* setItem throws *)
  clock : Z;                             (* Date.now() *)
  requests : nat;                        (* fetches issued so far *)
  server : nat -> string -> FetchOutcome; (* answer to the i-th fetch, by URL *)
  waits : nat;                           (* suspensions so far *)
  lateness : nat -> nat   (* ms the i-th suspension lasts beyond its least *)
}.

(** ** The instance *)

Inductive Sdk := Koru | AppManager.

(** The fields the runtime assigns after construction. *)
Record Fields := {
  config : WidgetConfig;
  authData : option AuthResponse;
  isInitialized : bool
}.

Record State := {
  this : Fields;
  browser : Browser
}.

(** ** Events *)

Inductive HookCall :=
| OnInit (c : WidgetConfig)
| OnRender (c : WidgetConfig)
| OnDestroy
| OnConfigUpdate (c : WidgetConfig).

Record AnalyticsBody := {
  body_website_id : string;
  body_app_id : string;
  event_type : string;
  event_data : gmap string string
}.

Inductive Event :=
| ConsoleLog (tag message : string)
| ConsoleError (text : string) (error : Thrown)
| GetItem (key : string)
| SetItem (key : string) (data : AuthResponse) (timestamp : Z)
| RemoveItem (key : string)
| FetchGet (url : string)
| FetchPost (url : string) (body : AnalyticsBody)
| SetTimeout (ms : Z)
| AwaitDOMContentLoaded
| Hook (h : HookCall).

(** ** Computations *)

Inductive Outcome (A : Type) :=
| Return (a : A)
| Throw (e : Thrown).
Arguments Return {A} a.
Arguments Throw {A} e.

Record Run (A : Type) := {
  outcome : Outcome A;
  final : State;
  emitted : list Event
}.
Arguments outcome {A} _.
Arguments final {A} _.
Arguments emitted {A} _.
Arguments Build_Run {A} _ _ _.

Definition M (A : Type) : Type := State -> Run A.

Definition ret {A} (a : A) : M A :=
  fun s => {| outcome := Return a; final := s; emitted := [] |}.

Definition throw {A} (e : Thrown) : M A :=
  fun s => {| outcome := Throw e; final := s; emitted := [] |}.

Definition bind {A B} (m : M A) (k : A -> M B) : M B :=
  fun s =>
    match m s with
    | {| outcome := Return a; final := s1; emitted := l1 |} =>
        match k a s1 with
        | {| outcome := o; final := s2; emitted := l2 |} =>
            {| outcome := o; final := s2; emitted := l1 ++ l2 |}
        end
    | {| outcome := Throw e; final := s1; emitted := l1 |} =>
        {| outcome := Throw e; final := s1; emitted := l1 |}
    end.

(** [try { m } catch (error) { h error }] *)
Definition try_catch {A} (m : M A) (h : Thrown -> M A) : M A :=
  fun s =>
    match m s with
    | {| outcome := Return a; final := s1; emitted := l1 |} =>
        {| outcome := Return a; final := s1; emitted := l1 |}
    | {| outcome := Throw e; final := s1; emitted := l1 |} =>
        match h e s1 with
        | {| outcome := o; final := s2; emitted := l2 |} =>
            {| outcome := o; final := s2; emitted := l1 ++ l2 |}
        end
    end.

Declare Scope js_scope.
Delimit Scope js_scope with js.
Notation "x <- m ;; k" := (bind m (fun x => k))
  (at level 100, m at next level, right associativity) : js_scope.
Notation "m ;; k" := (bind m (fun _ => k))
  (at level 100, right associativity) : js_scope.
Local Open Scope js_scope.

Definition emit (e : Event) : M unit :=
  fun s => {| outcome := Return tt; final := s; emitted := [e] |}.

Definition get : M State :=
  fun s => {| outcome := Return s; final := s; emitted := [] |}.

Definition modify (f : State -> State) : M unit :=
  fun s => {| outcome := Return tt; final := f s; emitted := [] |}.

Definition set_this (f : Fields -> Fields) : State -> State :=
  fun s => {| this := f (this s); browser := browser s |}.

Definition set_browser (f : Browser -> Browser) : State -> State :=
  fun s => {| this := this s; browser := f (browser s) |}.

(** A hook of the subclass: any function on the state that returns or
    throws. *)
Definition HostCode : Type := State -> Outcome unit * State.

Record Hooks := {
  onInit : WidgetConfig -> HostCode;
  onRender : WidgetConfig -> HostCode;
  onDestroy : HostCode;
  onConfigUpdate : option (WidgetConfig -> HostCode)
}.

(** The runtime calls a hook: the call is recorded, then the hook runs. *)
Definition call (h : HookCall) (code : HostCode) : M unit :=
  fun s =>
    let '(o, s') := code s in
    {| outcome := o; final := s'; emitted := [Hook h] |}.

(** What the constructor fixes for the life of the instance. *)
Record Widget := {
  sdk : Sdk;
  websiteId : string;
  appId : string;
  koruUrl : string;
  widgetName : string;
  widgetVersion : string;
  options : Options;
  hooks : Hooks
}.

(** Field updates. *)
Definition with_config (c : WidgetConfig) (f : Fields) : Fields :=
  {| config := c; authData := authData f; isInitialized := isInitialized f |}.
Definition with_authData (a : option AuthResponse) (f : Fields) : Fields :=
  {| config := config f; authData := a; isInitialized := isInitialized f |}.
Definition with_isInitialized (b : bool) (f : Fields) : Fields :=
  {| config := config f; authData := authData f; isInitialized := b |}.

Definition with_document (d : option ReadyState) (b : Browser) : Browser :=
  {| previewConfig := previewConfig b; origin := origin b; document := d;
     localStorage := localStorage b; quotaExceeded := quotaExceeded b;
     clock := clock b; requests := requests b; server := server b;
     waits := waits b; lateness := lateness b |}.
Definition with_localStorage (m : option (gmap string Stored)) (b : Browser)
  : Browser :=
  {| previewConfig := previewConfig b; origin := origin b;
     document := document b; localStorage := m;
     quotaExceeded := quotaExceeded b; clock := clock b;
     requests := requests b; server := server b;
     waits := waits b; lateness := lateness b |}.
Definition with_clock (t : Z) (b : Browser) : Browser :=
  {| previewConfig := previewConfig b; origin := origin b;
     document := document b; localStorage := localStorage b;
     quotaExceeded := quotaExceeded b; clock := t;
     requests := requests b; server := server b;
     waits := waits b; lateness := lateness b |}.
Definition with_requests (n : nat) (b : Browser) : Browser :=
  {| previewConfig := previewConfig b; origin := origin b;
     document := document b; localStorage := localStorage b;
     quotaExceeded := quotaExceeded b; clock := clock b;
     requests := n; server := server b;
     waits := waits b; lateness := lateness b |}.
(** The clock and the count of suspensions after one more suspension. *)
Definition with_wait (t : Z) (b : Browser) : Browser :=
  {| previewConfig := previewConfig b; origin := origin b;
     document := document b; localStorage := localStorage b;
     quotaExceeded := quotaExceeded b; clock := t;
     requests := requests b; server := server b;
     waits := S (waits b); lateness := lateness b |}.

(** ** Browser primitives *)

(** [Date.now()] *)
Definition Date_now : M Z :=
  s <- get;; ret (clock (browser s)).

(** The [DOMException]s of the storage. *)
Definition securityError : Thrown :=
  errorOf "SecurityError" "The operation is insecure.".
Definition quotaError : Thrown :=
  errorOf "QuotaExceededError" "The quota has been exceeded.".

(** [localStorage.getItem(key)]; [None] is [null]. *)
Definition getItem (key : string) : M (option Stored) :=
  emit (GetItem key);;
  s <- get;;
  match localStorage (browser s) with
  | None => throw securityError
  | Some m => ret (m !! key)
  end.

(** [localStorage.setItem(key, JSON.stringify({ data, timestamp }))] *)
Definition setItem (key : string) (data : AuthResponse) (timestamp : Z)
  : M unit :=
  emit (SetItem key data timestamp);;
  s <- get;;
  match localStorage (browser s) with
  | None => throw securityError
  | Some m =>
      if quotaExceeded (browser s) then throw quotaError
      else modify (set_browser (with_localStorage
             (Some (<[key := Parsed (Some data) (Some timestamp)]> m))))
  end.

(** [localStorage.removeItem(key)] *)
Definition removeItem (key : string) : M unit :=
  emit (RemoveItem key);;
  s <- get;;
  match localStorage (browser s) with
  | None => throw securityError
  | Some m => modify (set_browser (with_localStorage (Some (delete key m))))
  end.

(** The caller is suspended for [least] milliseconds or more. *)
Definition suspend (least : Z) : M unit :=
  s <- get;;
  let b := browser s in
  modify (set_browser
            (with_wait (clock b + least + Z.of_nat (lateness b (waits b))))).

(** [await fetch(url, { method: 'GET', ... })]: the request is issued and
    the server's answer awaited. *)
Definition fetch (url : string) : M (Z * Body) :=
  emit (FetchGet url);;
  s <- get;;
  modify (set_browser (with_requests (S (requests (browser s)))));;
  suspend 0;;
  match server (browser s) (requests (browser s)) url with
  | Rejected message => throw (typeError message)
  | Response status body => ret (status, body)
  end.

(** [await response.json()] *)
Definition json (body : Body) : M AuthResponse :=
  suspend 0;;
  match body with
  | BadJson message => throw (syntaxError message)
  | Json data => ret data
  end.

(** The least time a timer set for [ms] milliseconds takes: the delay is
    kept as a 32-bit integer, and a delay outside [0 .. 2^31 - 1] does not
    hold the timer back. *)
Definition timerDelay (ms : Z) : Z :=
  if ((0 <=? ms)%Z && (ms <? 2 ^ 31)%Z)%bool then ms else 0.

(** [fetch(url, { method: 'POST', body })] whose promise is not awaited: the
    request leaves, its answer is not observed by the caller. *)
Definition post (url : string) (body : AnalyticsBody) : M unit :=
  emit (FetchPost url body);;
  s <- get;;
  modify (set_browser (with_requests (S (requests (browser s))))).

(** ** The methods of the class *)

Section Methods.

Variable w : Widget.

Definition authPath : string :=
  match sdk w with
  | Koru => "/api/auth/widget"
  | AppManager => "/api/widget/authorize"
  end.

Definition analyticsPath : string :=
  match sdk w with
  | Koru => "/api/analytics"
  | AppManager => "/api/widget/analytics"
  end.

Definition cachePrefix : string :=
  match sdk w with
  | Koru => "koru_widget_"
  | AppManager => "appmanager_widget_"
  end.

(** [log(message, ...args)]; the extra arguments are not kept. *)
Definition log (message : string) : M unit :=
  if debug (options w)
  then emit (ConsoleLog ("[" +:+ widgetName w +:+ "]") message)
  else ret tt.

(** [track(eventName, eventData)].  The spread [...eventData] comes last in
    the object literal, so its keys win. *)
Definition track (eventName : string) (eventData : gmap string string)
  : M unit :=
  if negb (analytics (options w)) then ret tt
  else
    let url := koruUrl w +:+ analyticsPath in
    post url
      {| body_website_id := websiteId w;
         body_app_id := appId w;
         event_type := eventName;
         event_data :=
           eventData ∪ {[ "widget" := widgetName w;
                          "version" := widgetVersion w ]} |}.

(** [error instanceof Error] *)
Definition instanceofError (error : Thrown) : bool :=
  match error with
  | ErrorObj _ => true
  | Value isError _ _ => isError
  end.

(** [error.message] and [error?.message]: the property, or what its getter
    throws.  [None] is [undefined]. *)
Definition messageOf (error : Thrown) : Thrown + option string :=
  match error with
  | ErrorObj message => inr (Some message)
  | Value _ Missing _ => inr None
  | Value _ (Text s) _ => inr (Some s)
  | Value _ (GetterThrows e) _ => inl e
  end.

(** [String(error)], or what the conversion throws. *)
Definition String_ (error : Thrown) : Thrown + string :=
  match error with
  | ErrorObj message => inr (errorString "Error" message)
  | Value _ _ (Renders s) => inr s
  | Value _ _ (ConversionThrows e) => inl e
  end.

(** [String(error)] as the value of a field. *)
Definition rendered (error : Thrown) : Thrown + option string :=
  match String_ error with
  | inl e => inl e
  | inr s => inr (Some s)
  end.

(** The value of the telemetry field [error], or what computing it throws:
    [error instanceof Error ? error.message : String(error)] in KoruWidget,
    [error?.message || String(error)] in AppManagerWidget.  [None] is
    [undefined]. *)
Definition errorText (error : Thrown) : Thrown + option string :=
  match sdk w with
  | Koru =>
      if instanceofError error then messageOf error else rendered error
  | AppManager =>
      match messageOf error with
      | inl e => inl e
      | inr (Some s) => if falsy s then rendered error else inr (Some s)
      | inr None => rendered error
      end
  end.

(** [{ error: text, message }]: [JSON.stringify] leaves out a field that is
    [undefined]. *)
Definition errorData (text : option string) (message : string)
  : gmap string string :=
  match text with
  | Some t => {[ "error" := t; "message" := message ]}
  | None => {[ "message" := message ]}
  end.

(** [handleError(message, error)].  The argument of [track] is evaluated
    here, outside the [try] of [track]. *)
Definition handleError (message : string) (error : Thrown) : M unit :=
  emit (ConsoleError ("[" +:+ widgetName w +:+ "] " +:+ message +:+ ":")
          error);;
  if analytics (options w)
  then match errorText error with
       | inl e => throw e
       | inr text => track "widget_error" (errorData text message)
       end
  else ret tt.

Definition waitForDOM : M unit :=
  s <- get;;
  match document (browser s) with
  | None => throw (referenceError "document is not defined")
  | Some Loading =>
      emit AwaitDOMContentLoaded;;
      suspend 0;;
      modify (set_browser (with_document (Some Interactive)))
  | Some _ => ret tt
  end.

(** [sleep(ms)]: the timer fires [ms] milliseconds from now, or later. *)
Definition sleep (ms : Z) : M unit :=
  emit (SetTimeout ms);;
  suspend (timerDelay ms).

Definition getCacheKey : string :=
  cachePrefix +:+ websiteId w +:+ "_" +:+ appId w.

Definition clearCache : M unit :=
  try_catch
    (let key := getCacheKey in
     removeItem key)
    (fun _ => ret tt).

(** [(Date.now() - timestamp) / 1000] *)
Definition age (now timestamp : Z) : Q :=
  (inject_Z (now - timestamp) / inject_Z 1000)%Q.

(** [age > this.options.cacheDuration] *)
Definition expired (now timestamp : Z) : bool :=
  negb (Qle_bool (age now timestamp) (inject_Z (cacheDuration (options w)))).

Definition getFromCache : M (option AuthResponse) :=
  try_catch
    (let key := getCacheKey in
     cached <- getItem key;;
     match cached with
     | None | Some Blank => ret None
     | Some Unparseable => throw (syntaxError "JSON.parse: unexpected character")
     | Some (Parsed data timestamp) =>
         now <- Date_now;;
         match timestamp with
         | Some t =>
             if expired now t then clearCache;; ret None else ret data
         | None => ret data
         end
     end)
    (fun _ => ret None).

Definition saveToCache (data : AuthResponse) : M unit :=
  try_catch
    (let key := getCacheKey in
     now <- Date_now;;
     setItem key data now)
    (fun error => log "Failed to cache auth data:").

Definition authUrl : string :=
  koruUrl w +:+ authPath +:+ "?website_id=" +:+ websiteId w
    +:+ "&app_id=" +:+ appId w.

(** The body of the [try] block of one attempt. *)
Definition attemptOnce (attempt : Z) : M AuthResponse :=
  log ("Authorization attempt " +:+ pretty attempt +:+ "/"
         +:+ pretty (retryAttempts (options w)));;
  let url := authUrl in
  response <- fetch url;;
  let '(status, body) := response in
  if negb (ok status)
  then throw (ErrorObj ("Authorization failed: " +:+ pretty status))
  else
    data <- json body;;
    (if cache (options w) then saveToCache data else ret tt);;
    ret data.

(** The [catch] block of one attempt; it gives the new [lastError]. *)
Definition attemptFailed (attempt : Z) (error : Thrown) : M Thrown :=
  log ("Authorization attempt " +:+ pretty attempt +:+ " failed:");;
  (if (attempt <? retryAttempts (options w))%Z
   then sleep (retryDelay (options w))
   else ret tt);;
  ret error.

(** One iteration of the loop: the [try] block and its [catch].  [inl] is
    the [return data] of the [try] block, [inr] the new [lastError]. *)
Definition iteration (attempt : Z) : M (AuthResponse + Thrown) :=
  try_catch
    (data <- attemptOnce attempt;; ret (inl data))
    (fun error => e <- attemptFailed attempt error;; ret (inr e)).

(** [for (let attempt = 1; attempt <= retryAttempts; attempt++) { ... }]
    followed by [throw lastError || new Error('Authorization failed')].
    The loop runs over the values [attempt] takes, in order; a [return]
    inside the [try] leaves the loop. *)
Fixpoint retryLoop (attempts : list Z) (lastError : option Thrown)
  : M AuthResponse :=
  match attempts with
  | [] => throw (default (ErrorObj "Authorization failed") lastError)
  | attempt :: rest =>
      r <- iteration attempt;;
      match r with
      | inl data => ret data
      | inr e => retryLoop rest (Some e)
      end
  end.

(** The preview slot as the class sees it: AppManagerWidget has no such
    check. *)
Definition previewOf (b : Browser) : option WidgetConfig :=
  match sdk w with
  | Koru => previewConfig b
  | AppManager => None
  end.

Definition previewResponse (preview : WidgetConfig) (b : Browser)
  : AuthResponse :=
  {| authorized := true;
     config_of := preview;
     token := "preview-mode";
     app := {| app_id := appId w;
               app_name := "Preview Mode";
               app_description := "Widget running in Koru preview mode" |};
     website := {| website_id := websiteId w;
                   website_url := origin b;
                   is_ecommerce := false;
                   customer := "preview" |} |}.

(** The cache stage of [authorize]. *)
Definition cacheLookup : M (option AuthResponse) :=
  if cache (options w) then getFromCache else ret None.

(** The network stage of [authorize]. *)
Definition networkStage : M AuthResponse :=
  retryLoop (seqZ 1 (retryAttempts (options w))) None.

Definition authorize : M AuthResponse :=
  s <- get;;
  match previewOf (browser s) with
  | Some preview =>
      log "Using Koru preview config";;
      ret (previewResponse preview (browser s))
  | None =>
      cached <- cacheLookup;;
      match cached with
      | Some data => log "Using cached authorization";; ret data
      | None => networkStage
      end
  end.

(** [this.authData.authorized] and [this.authData.config]: a read of a
    field of [null] throws a [TypeError]. *)
Definition readAuthData : M AuthResponse :=
  s <- get;;
  match authData (this s) with
  | Some a => ret a
  | None => throw (typeError "this.authData is null")
  end.

(** The [try] block of [start]. *)
Definition startBody : M unit :=
  waitForDOM;;
  response <- authorize;;
  modify (set_this (with_authData (Some response)));;
  a <- readAuthData;;
  if negb (authorized a) then log "Widget not authorized"
  else
    a <- readAuthData;;
    modify (set_this (with_config (config_of a)));;
    s <- get;;
    call (OnInit (config (this s))) (onInit (hooks w) (config (this s)));;
    s <- get;;
    call (OnRender (config (this s)))
         (onRender (hooks w) (config (this s)));;
    modify (set_this (with_isInitialized true));;
    log "Widget started successfully";;
    if analytics (options w)
    then track "widget_loaded"
           {[ "widget" := widgetName w; "version" := widgetVersion w ]}
    else ret tt.

Definition start : M unit :=
  try_catch startBody
    (fun error => handleError "Failed to start widget" error).

(** The [try] block of [stop]. *)
Definition stopBody : M unit :=
  call OnDestroy (onDestroy (hooks w));;
  modify (set_this (with_isInitialized false));;
  log "Widget stopped".

Definition stop : M unit :=
  try_catch stopBody
    (fun error => handleError "Failed to stop widget" error).

(** The [try] block of [reload]. *)
Definition reloadBody : M unit :=
  clearCache;;
  response <- authorize;;
  modify (set_this (with_authData (Some response)));;
  a <- readAuthData;;
  if negb (authorized a) then ret tt
  else
    a <- readAuthData;;
    let newConfig := config_of a in
    match onConfigUpdate (hooks w) with
    | Some update => call (OnConfigUpdate newConfig) (update newConfig)
    | None =>
        call OnDestroy (onDestroy (hooks w));;
        call (OnRender newConfig) (onRender (hooks w) newConfig)
    end;;
    modify (set_this (with_config newConfig));;
    log "Widget reloaded".

Definition reload : M unit :=
  try_catch reloadBody
    (fun error => handleError "Failed to reload widget" error).

(** ** Names for parts of the runs *)

(** The telemetry body of an error report whose field [error] is [text]. *)
Definition errorReport (message : string) (text : option string)
  : AnalyticsBody :=
  {| body_website_id := websiteId w;
     body_app_id := appId w;
     event_type := "widget_error";
     event_data :=
       errorData text message
       ∪ {[ "widget" := widgetName w; "version" := widgetVersion w ]} |}.

(** The state in which [start] calls [onInit], when the authorization
    returned [a] and left the state [s]. *)
Definition authorizedState (a : AuthResponse) (s : State) : State :=
  set_this (with_config (config_of a)) (set_this (with_authData (Some a)) s).

(** The rest of the [try] block of [reload] once the fresh result is known
    to be authorized. *)
Definition reloadTail (newConfig : WidgetConfig) : M unit :=
  match onConfigUpdate (hooks w) with
  | Some update => call (OnConfigUpdate newConfig) (update newConfig)
  | None =>
      call OnDestroy (onDestroy (hooks w));;
      call (OnRender newConfig) (onRender (hooks w) newConfig)
  end;;
  modify (set_this (with_config newConfig));;
  log "Widget reloaded".

End Methods.

(** ** Observations on a run *)

Definition isHook (e : Event) : bool :=
  match e with Hook _ => true | _ => false end.

Definition isDestroy (e : Event) : bool :=
  match e with Hook OnDestroy => true | _ => false end.

Definition isCacheRead (e : Event) : bool :=
  match e with GetItem _ => true | _ => false end.

Definition isCacheWrite (e : Event) : bool :=
  match e with SetItem _ _ _ | RemoveItem _ => true | _ => false end.

Definition isRequest (e : Event) : bool :=
  match e with FetchGet _ | FetchPost _ _ => true | _ => false end.

Definition isTimer (e : Event) : bool :=
  match e with SetTimeout _ => true | _ => false end.

(** How many of the events satisfy [p]. *)
Definition count (p : Event -> bool) (l : list Event) : nat :=
  length (List.filter p l).

(** The requests and the timers of a run, in order. *)
Definition schedule (l : list Event) : list Event :=
  List.filter (fun e => isRequest e || isTimer e) l.

(** [n] requests to [url] with a pause of [ms] between consecutive ones. *)
Fixpoint paced (url : string) (ms : Z) (n : nat) : list Event :=
  match n with
  | O => []
  | S O => [FetchGet url]
  | S n' => FetchGet url :: SetTimeout ms :: paced url ms n'
  end.

(** The error an attempt fails with, when it fails at the transport or on
    the status. *)
Definition failureOf (o : FetchOutcome) : Thrown :=
  match o with
  | Rejected message => typeError message
  | Response status _ => ErrorObj ("Authorization failed: " +:+ pretty status)
  end.

Definition fails (o : FetchOutcome) : Prop :=
  match o with
  | Rejected _ => True
  | Response status _ => ok status = false
  end.

(** The error channel got [error] under the text of [message], and so did
    telemetry when analytics is on. *)
Definition reported (w : Widget) (message : string) (error : Thrown)
    (l : list Event) : Prop :=
  In (ConsoleError ("[" +:+ widgetName w +:+ "] " +:+ message +:+ ":") error) l
  /\ (analytics (options w) = true ->
      exists body,
        In (FetchPost (koruUrl w +:+ analyticsPath w) body) l
        /\ event_type body = "widget_error"
        /\ event_data body !! "message" = Some message).

(** [handleError] can report [error] in full: telemetry is off, or the value
    of the field [error] can be computed. *)
Definition reportable (w : Widget) (error : Thrown) : Prop :=
  analytics (options w) = false
  \/ exists text, errorText w error = inr text.

(** How a call whose [try] block threw [error] ends: the error is on the
    error channel, and when it can be reported in full the call returned
    and the report is complete. *)
Definition handled (w : Widget) (message : string) (error : Thrown)
    (r : Run unit) : Prop :=
  In (ConsoleError ("[" +:+ widgetName w +:+ "] " +:+ message +:+ ":") error)
    (emitted r)
  /\ (reportable w error ->
      outcome r = Return tt /\ reported w message error (emitted r)).

(** A computation is [quiet] when it calls no hook, leaves the fields of
    the instance alone and does not change how the server answers. *)
Definition quiet {A} (m : M A) : Prop :=
  forall s,
    this (final (m s)) = this s
    /\ server (browser (final (m s))) = server (browser s)
    /\ Forall (fun e => isHook e = false) (emitted (m s)).

(** [s] has no underscore. *)
Fixpoint plain (s : string) : bool :=
  match s with
  | "" => true
  | String c s' => negb (Ascii.eqb c ("_" : Ascii.ascii)) && plain s'
  end.

(** ** Instances used in the examples *)

Definition returns : HostCode := fun s => (Return tt, s).

Definition throws (e : Thrown) : HostCode := fun s => (Throw e, s).

(** A hook that reassigns [this.config]. *)
Definition assignsConfig (c : WidgetConfig) : HostCode :=
  fun s => (Return tt, set_this (with_config c) s).

Definition plainHooks : Hooks :=
  {| onInit := fun _ => returns; onRender := fun _ => returns;
     onDestroy := returns; onConfigUpdate := None |}.

Definition demoWidget (k : Sdk) (o : Options) (h : Hooks) : Widget :=
  {| sdk := k; websiteId := "site-1"; appId := "app-1";
     koruUrl := "https://koru.example"; widgetName := "demo";
     widgetVersion := "1.0.0"; options := o; hooks := h |}.

(** The default options with telemetry on. *)
Definition withAnalytics : Options :=
  {| cache := true; cacheDuration := 3600; retryAttempts := 3;
     retryDelay := 1000; analytics := true; debug := false |}.

Definition demo : Widget := demoWidget Koru defaultOptions plainHooks.

(** A widget whose [onDestroy] throws. *)
Definition faulty : Widget :=
  demoWidget Koru withAnalytics
    {| onInit := fun _ => returns; onRender := fun _ => returns;
       onDestroy := throws (ErrorObj "listener already removed");
       onConfigUpdate := None |}.

(** A widget whose [onInit] throws. *)
Definition crashing : Widget :=
  demoWidget Koru withAnalytics
    {| onInit := fun _ => throws (ErrorObj "mount point not found");
       onRender := fun _ => returns; onDestroy := returns;
       onConfigUpdate := None |}.

(** A widget whose [onInit] reassigns [this.config]. *)
Definition rewriter : Widget :=
  demoWidget Koru defaultOptions
    {| onInit := fun _ => assignsConfig {[ "title" := JStr "Mine" ]};
       onRender := fun _ => returns; onDestroy := returns;
       onConfigUpdate := None |}.

(** An instance of class [k] embedded for the given pair of ids. *)
Definition embedded (k : Sdk) (site app : string) : Widget :=
  {| sdk := k; websiteId := site; appId := app;
     koruUrl := "https://koru.example"; widgetName := "demo";
     widgetVersion := "1.0.0"; options := defaultOptions;
     hooks := plainHooks |}.

Definition granted : AuthResponse :=
  {| authorized := true;
     config_of := {[ "title" := JStr "Hello" ]};
     token := "tok-1";
     app := {| app_id := "app-1"; app_name := "Demo";
               app_description := "A demo app" |};
     website := {| website_id := "site-1";
                   website_url := "https://shop.example";
                   is_ecommerce := true; customer := "cust-1" |} |}.

Definition denied : AuthResponse :=
  {| authorized := false;
     config_of := ∅;
     token := "";
     app := {| app_id := "app-1"; app_name := "Demo";
               app_description := "A demo app" |};
     website := {| website_id := "site-1";
                   website_url := "https://shop.example";
                   is_ecommerce := true; customer := "cust-1" |} |}.

(** A loaded page at time [now] with the given store and server. *)
Definition page (store : gmap string Stored) (now : Z)
    (answers : nat -> string -> FetchOutcome) : Browser :=
  {| previewConfig := None; origin := "https://shop.example";
     document := Some Complete; localStorage := Some store;
     quotaExceeded := false; clock := now; requests := 0;
     server := answers; waits := 0; lateness := fun _ => 0%nat |}.

Definition created : Fields :=
  {| config := ∅; authData := None; isInitialized := false |}.

Definition running : Fields :=
  {| config := config_of granted; authData := Some granted;
     isInitialized := true |}.

(** A server that is down: 503 and transport errors in turn. *)
Definition down : nat -> string -> FetchOutcome :=
  fun i _ => if Nat.even i then Response 503 (BadJson "Unexpected token")
             else Rejected "Failed to fetch".

Definition grants : nat -> string -> FetchOutcome :=
  fun _ _ => Response 200 (Json granted).

Definition denies : nat -> string -> FetchOutcome :=
  fun _ _ => Response 200 (Json denied).

Definition atTime (store : gmap string Stored) (now : Z)
    (answers : nat -> string -> FetchOutcome) (f : Fields) : State :=
  {| this := f; browser := page store now answers |}.

(** The store after an authorization captured at time 1000000. *)
Definition storeOfDemo : gmap string Stored :=
  {[ "koru_widget_site-1_app-1" := Parsed (Some granted) (Some 1000000) ]}.

(** The page with the preview slot populated. *)
Definition previewing : State :=
  {| this := created;
     browser :=
       {| previewConfig := Some {[ "title" := JStr "Draft" ]};
          origin := "https://koru.example"; document := Some Complete;
          localStorage := Some storeOfDemo; quotaExceeded := false;
          clock := 1000500; requests := 0; server := down;
          waits := 0; lateness := fun _ => 0%nat |} |}.

(** ** Construction *)

(** [WidgetOptions['options']]: every field may be left out. *)
Record PartialOptions := {
  opt_cache : option bool;
  opt_cacheDuration : option Z;
  opt_retryAttempts : option Z;
  opt_retryDelay : option Z;
  opt_analytics : option bool;
  opt_debug : option bool
}.

(** [interface WidgetOptions { name; version; options? }] *)
Record WidgetOptions := {
  wo_name : string;
  wo_version : string;
  wo_options : option PartialOptions
}.

(** [{ cache: true, cacheDuration: 3600, ..., ...widgetOptions.options }]:
    a field that is given replaces the default. *)
Definition mergeOptions (given : option PartialOptions) : Options :=
  match given with
  | None => defaultOptions
  | Some p =>
      {| cache := default (cache defaultOptions) (opt_cache p);
         cacheDuration :=
           default (cacheDuration defaultOptions) (opt_cacheDuration p);
         retryAttempts :=
           default (retryAttempts defaultOptions) (opt_retryAttempts p);
         retryDelay := default (retryDelay defaultOptions) (opt_retryDelay p);
         analytics := default (analytics defaultOptions) (opt_analytics p);
         debug := default (debug defaultOptions) (opt_debug p) |}
  end.

(** [script.getAttribute(name) || ''] *)
Definition attributeOr (script : gmap string string) (name : string)
  : string :=
  match script !! name with
  | Some v => if falsy v then "" else v
  | None => ""
  end.

(** The constructor of class [k] with hooks [h].  [currentScript] is
    [document.currentScript] when the constructor runs: [None] is [null],
    otherwise the attributes of the script element. *)
Definition constructor (k : Sdk) (h : Hooks)
    (currentScript : option (gmap string string))
    (widgetOptions : WidgetOptions) : M Widget :=
  let name := wo_name widgetOptions in
  let version := wo_version widgetOptions in
  let merged := mergeOptions (wo_options widgetOptions) in
  s <- get;;
  match document (browser s) with
  | None => throw (referenceError "document is not defined")
  | Some _ =>
      match currentScript with
      | None => throw (ErrorObj "[Widget SDK] Could not find script tag")
      | Some script =>
          let website := attributeOr script "data-website-id" in
          let app := attributeOr script "data-app-id" in
          let url := attributeOr script "data-app-manager-url" in
          if falsy website || falsy app || falsy url
          then throw (ErrorObj "[Widget SDK] Missing required data attributes")
          else
            let w := {| sdk := k; websiteId := website; appId := app;
                        koruUrl := url; widgetName := name;
                        widgetVersion := version; options := merged;
                        hooks := h |} in
            log w "SDK initialized";;
            ret w
      end
  end.

(** ** More observations *)

Definition isConsoleLog (e : Event) : bool :=
  match e with ConsoleLog _ _ => true | _ => false end.

Definition isStorage (e : Event) : bool :=
  isCacheRead e || isCacheWrite e.

Definition isPost (e : Event) : bool :=
  match e with FetchPost _ _ => true | _ => false end.

(** The events that are not of the given kind. *)
Definition notStorage (e : Event) : bool := negb (isStorage e).
Definition notConsoleLog (e : Event) : bool := negb (isConsoleLog e).
Definition notPost (e : Event) : bool := negb (isPost e).

(** The store of a state. *)
Definition storeOf (s : State) : option (gmap string Stored) :=
  localStorage (browser s).

(** The hook calls of a run, in order. *)
Definition hookCalls (l : list Event) : list Event := List.filter isHook l.

(** Every event of every run of [m] satisfies [p]. *)
Definition emits {A} (p : Event -> bool) (m : M A) : Prop :=
  forall s, Forall (fun e => p e = true) (emitted (m s)).

(** The error one attempt ends with, if any: a rejected request, a status
    outside 200..299, or a body that is not JSON. *)
Definition attemptError (o : FetchOutcome) : option Thrown :=
  match o with
  | Rejected message => Some (typeError message)
  | Response status body =>
      if ok status
      then match body with
           | BadJson message => Some (syntaxError message)
           | Json _ => None
           end
      else Some (ErrorObj ("Authorization failed: " +:+ pretty status))
  end.

(** The store after [saveToCache] of class and ids [w] at time [now]. *)
Definition stored (w : Widget) (data : AuthResponse) (now : Z)
    (b : Browser) : option (gmap string Stored) :=
  match localStorage b with
  | Some m =>
      if quotaExceeded b then Some m
      else Some (<[getCacheKey w := Parsed (Some data) (Some now)]> m)
  | None => None
  end.

(** Every run of [m] leaves the observation [f] of the state as it was. *)
Definition preserves {A X} (f : State -> X) (m : M A) : Prop :=
  forall s, f (final (m s)) = f s.

(** The error boundary of a method: [call] is [body] in a [try] whose
    [catch] is [handleError] with the text [message].  When [body] returns,
    the call is [body].  When [body] throws, the error is handled; and in
    the one case where it cannot be reported in full (analytics is on and
    computing the telemetry field throws [e']) the call throws [e'], with
    the line on the error channel as its last event. *)
Definition guarded (w : Widget) (message : string) (body call : M unit)
    (s : State) : Prop :=
  (outcome (body s) = Return tt -> call s = body s)
  /\ (forall e, outcome (body s) = Throw e ->
      handled w message e (call s)
      /\ (forall e', analytics (options w) = true ->
          errorText w e = inl e' ->
          outcome (call s) = Throw e'
          /\ final (call s) = final (body s)
          /\ emitted (call s)
             = emitted (body s)
               ++ [ConsoleError
                     ("[" +:+ widgetName w +:+ "] " +:+ message +:+ ":") e])).

(** A value whose [message] can be read and that [String] can convert. *)
Definition renderable (e : Thrown) : bool :=
  match e with
  | ErrorObj _ => true
  | Value _ (GetterThrows _) _ => false
  | Value _ _ (ConversionThrows _) => false
  | Value _ _ (Renders _) => true
  end.

(** Host code that throws renderable values only. *)
Definition civil (code : HostCode) : Prop :=
  forall s e s', code s = (Throw e, s') -> renderable e = true.

Definition civilHooks (h : Hooks) : Prop :=
  (forall c, civil (onInit h c))
  /\ (forall c, civil (onRender h c))
  /\ civil (onDestroy h)
  /\ (forall update c, onConfigUpdate h = Some update -> civil (update c)).

(** Every value that [m] throws satisfies [P]. *)
Definition raises {A} (P : Thrown -> Prop) (m : M A) : Prop :=
  forall s e, outcome (m s) = Throw e -> P e.

(** ** isMobile *)

(** The letter case of the test: with the flag [i] and an ASCII pattern,
    two characters match when their upper-case forms are equal, and only
    the letters a..z have an upper-case form other than themselves. *)
Definition upper (c : ascii) : ascii :=
  let n := nat_of_ascii c in
  if ((97 <=? n)%nat && (n <=? 122)%nat)%bool
  then ascii_of_nat (n - 32)
  else c.

Fixpoint uppercase (s : string) : string :=
  match s with
  | "" => ""
  | String c s' => String (upper c) (uppercase s')
  end.

(** The pattern [p] matches at the start of [s]. *)
Fixpoint startsWith (p s : string) : bool :=
  match p, s with
  | "", _ => true
  | String _ _, "" => false
  | String a p', String b s' =>
      Ascii.eqb (upper a) (upper b) && startsWith p' s'
  end.

(** The pattern [p] matches somewhere in [s]. *)
Fixpoint matches (p s : string) : bool :=
  startsWith p s
  || match s with
     | "" => false
     | String _ s' => matches p s'
     end.

(** The alternatives of the regular expression. *)
Definition mobileNames : list string :=
  ["Android"; "iPhone"; "iPad"; "iPod"; "BlackBerry"; "IEMobile";
   "Opera Mini"].

(** [/Android|iPhone|iPad|iPod|BlackBerry|IEMobile|Opera Mini/i
     .test(navigator.userAgent)] *)
Definition isMobile (userAgent : string) : bool :=
  existsb (fun p => matches p userAgent) mobileNames.

(** ** More instances for the examples *)

(** The default options with caching off. *)
Definition withoutCache : Options :=
  {| cache := false; cacheDuration := 3600; retryAttempts := 3;
     retryDelay := 1000; analytics := false; debug := false |}.

Definition uncached : Widget := demoWidget Koru withoutCache plainHooks.

(** The same embedding as [demo], with telemetry on. *)
Definition tracked : Widget := demoWidget Koru withAnalytics plainHooks.

(** A widget that implements [onConfigUpdate]. *)
Definition updating : Widget :=
  demoWidget Koru defaultOptions
    {| onInit := fun _ => returns; onRender := fun _ => returns;
       onDestroy := returns; onConfigUpdate := Some (fun _ => returns) |}.

(** A widget whose [onRender] throws. *)
Definition unrendered : Widget :=
  demoWidget Koru withAnalytics
    {| onInit := fun _ => returns;
       onRender := fun _ => throws (ErrorObj "container is null");
       onDestroy := returns; onConfigUpdate := None |}.

(** A server that fails twice and grants from then on. *)
Definition flaky : nat -> string -> FetchOutcome :=
  fun i url => if (i <? 2)%nat then down i url else grants i url.

(** A server that answers 200 with a body that is not JSON. *)
Definition garbled : nat -> string -> FetchOutcome :=
  fun _ _ => Response 200 (BadJson "Unexpected token <").

(** The attributes of the script element of the demo page. *)
Definition scriptTag : gmap string string :=
  {[ "data-website-id" := "site-1"; "data-app-id" := "app-1";
     "data-app-manager-url" := "https://koru.example" ]}.

Definition demoOptions : WidgetOptions :=
  {| wo_name := "demo"; wo_version := "1.0.0"; wo_options := None |}.

(** The default options with no attempt allowed. *)
Definition withoutAttempts : Options :=
  {| cache := true; cacheDuration := 3600; retryAttempts := 0;
     retryDelay := 1000; analytics := false; debug := false |}.

Definition impatient : Widget := demoWidget Koru withoutAttempts plainHooks.

(** An instance of the predecessor class. *)
Definition legacy : Widget := demoWidget AppManager defaultOptions plainHooks.

(** [Object.create(null)]: not an [Error], without a [message], and
    [String] of it throws a [TypeError]. *)
Definition bare : Thrown :=
  Value false Missing
    (ConversionThrows (typeError "Cannot convert object to primitive value")).

(** A widget of class [k] whose hooks all throw [bare], with telemetry
    on. *)
Definition hostile (k : Sdk) : Widget :=
  demoWidget k withAnalytics
    {| onInit := fun _ => throws bare; onRender := fun _ => throws bare;
       onDestroy := throws bare; onConfigUpdate := None |}.

(** A store that also holds an item of the host page. *)
Definition sharedStore : gmap string Stored :=
  <[ "theme" := Unparseable ]> storeOfDemo.

(** * Properties *)

(** ** Laws of sequencing *)

Lemma bind_returns {A B} (m : M A) (k : A -> M B) s a :
  outcome (m s) = Return a ->
  bind m k s =
    {| outcome := outcome (k a (final (m s)));
       final := final (k a (final (m s)));
       emitted := emitted (m s) ++ emitted (k a (final (m s))) |}.
Proof.
  intros H. unfold bind. destruct (m s) as [o s1 l1]; cbn in *. subst o.
  now destruct (k a s1).
Qed.

Lemma bind_throws {A B} (m : M A) (k : A -> M B) s e :
  outcome (m s) = Throw e ->
  bind m k s =
    {| outcome := Throw e; final := final (m s); emitted := emitted (m s) |}.
Proof.
  intros H. unfold bind. destruct (m s) as [o s1 l1]; cbn in *. now subst o.
Qed.

Lemma try_catch_returns {A} (m : M A) h s a :
  outcome (m s) = Return a -> try_catch m h s = m s.
Proof.
  intros H. unfold try_catch. destruct (m s) as [o s1 l1]; cbn in *.
  now subst o.
Qed.

Lemma try_catch_throws {A} (m : M A) h s e :
  outcome (m s) = Throw e ->
  try_catch m h s =
    {| outcome := outcome (h e (final (m s)));
       final := final (h e (final (m s)));
       emitted := emitted (m s) ++ emitted (h e (final (m s))) |}.
Proof.
  intros H. unfold try_catch. destruct (m s) as [o s1 l1]; cbn in *. subst o.
  now destruct (h e s1).
Qed.

Lemma count_app p l1 l2 : count p (l1 ++ l2) = (count p l1 + count p l2)%nat.
Proof. unfold count. now rewrite List.filter_app, length_app. Qed.

Lemma schedule_app l1 l2 : schedule (l1 ++ l2) = schedule l1 ++ schedule l2.
Proof. apply List.filter_app. Qed.

(** ** Code that stays inside the runtime *)

Create HintDb quiet.

Lemma quiet_ret {A} (a : A) : quiet (ret a).
Proof. intros s. cbn. auto. Qed.

Lemma quiet_throw {A} e : quiet (@throw A e).
Proof. intros s. cbn. auto. Qed.

Lemma quiet_get : quiet get.
Proof. intros s. cbn. auto. Qed.

Lemma quiet_emit e : isHook e = false -> quiet (emit e).
Proof. intros H s. cbn. auto. Qed.

Lemma quiet_modify f :
  (forall b, server (f b) = server b) -> quiet (modify (set_browser f)).
Proof. intros H s. cbn. auto. Qed.

Lemma quiet_bind {A B} (m : M A) (k : A -> M B) :
  quiet m -> (forall a, quiet (k a)) -> quiet (bind m k).
Proof.
  intros Hm Hk s. destruct (Hm s) as (Ht & Hs & He).
  destruct (outcome (m s)) as [a|e] eqn:Ho.
  - rewrite (bind_returns _ _ _ _ Ho); cbn.
    destruct (Hk a (final (m s))) as (Ht' & Hs' & He').
    rewrite Ht', Hs'. repeat split; auto. apply Forall_app; auto.
  - rewrite (bind_throws _ _ _ _ Ho); cbn. auto.
Qed.

Lemma quiet_try_catch {A} (m : M A) h :
  quiet m -> (forall e, quiet (h e)) -> quiet (try_catch m h).
Proof.
  intros Hm Hh s. destruct (Hm s) as (Ht & Hs & He).
  destruct (outcome (m s)) as [a|e] eqn:Ho.
  - rewrite (try_catch_returns _ _ _ _ Ho). auto.
  - rewrite (try_catch_throws _ _ _ _ Ho); cbn.
    destruct (Hh e (final (m s))) as (Ht' & Hs' & He').
    rewrite Ht', Hs'. repeat split; auto. apply Forall_app; auto.
Qed.

#[local] Hint Resolve quiet_ret quiet_throw quiet_get quiet_emit quiet_modify
  quiet_bind quiet_try_catch : quiet.

Ltac quiet_step :=
  first
    [ apply quiet_bind; [|intros ?]
    | apply quiet_try_catch; [|intros ?]
    | apply quiet_ret | apply quiet_throw | apply quiet_get
    | apply quiet_emit; reflexivity
    | apply quiet_modify; reflexivity
    | match goal with
      | |- quiet (match ?x with _ => _ end) => destruct x
      | |- quiet (if ?x then _ else _) => destruct x
      | |- quiet (let '(_, _) := ?x in _) => destruct x
      end ].

Ltac quiet_auto := repeat quiet_step; eauto with quiet.

Lemma quiet_Date_now : quiet Date_now.
Proof. unfold Date_now. quiet_auto. Qed.

Lemma quiet_getItem key : quiet (getItem key).
Proof. unfold getItem. quiet_auto. Qed.

Lemma quiet_setItem key data t : quiet (setItem key data t).
Proof. unfold setItem. quiet_auto. Qed.

Lemma quiet_removeItem key : quiet (removeItem key).
Proof. unfold removeItem. quiet_auto. Qed.

Lemma quiet_fetch url : quiet (fetch url).
Proof. unfold fetch. quiet_auto. Qed.

Lemma quiet_json body : quiet (json body).
Proof. unfold json. quiet_auto. Qed.

Lemma quiet_post url body : quiet (post url body).
Proof. unfold post. quiet_auto. Qed.

#[local] Hint Resolve quiet_Date_now quiet_getItem quiet_setItem
  quiet_removeItem quiet_fetch quiet_json quiet_post : quiet.

Section Quiet.

Variable w : Widget.

Lemma quiet_log message : quiet (log w message).
Proof. unfold log. quiet_auto. Qed.

Lemma quiet_track name data : quiet (track w name data).
Proof. unfold track. quiet_auto. Qed.

Hint Resolve quiet_log quiet_track : quiet.

Lemma quiet_handleError message error : quiet (handleError w message error).
Proof. unfold handleError. quiet_auto. Qed.

Lemma quiet_waitForDOM : quiet (waitForDOM).
Proof. unfold waitForDOM. quiet_auto. Qed.

Lemma quiet_sleep ms : quiet (sleep ms).
Proof. unfold sleep. quiet_auto. Qed.

Lemma quiet_clearCache : quiet (clearCache w).
Proof. unfold clearCache. quiet_auto. Qed.

Hint Resolve quiet_sleep quiet_clearCache : quiet.

Lemma quiet_getFromCache : quiet (getFromCache w).
Proof. unfold getFromCache. quiet_auto. Qed.

Lemma quiet_saveToCache data : quiet (saveToCache w data).
Proof. unfold saveToCache. quiet_auto. Qed.

Hint Resolve quiet_getFromCache quiet_saveToCache : quiet.

Lemma quiet_cacheLookup : quiet (cacheLookup w).
Proof. unfold cacheLookup. quiet_auto. Qed.

Lemma quiet_attemptOnce attempt : quiet (attemptOnce w attempt).
Proof. unfold attemptOnce. quiet_auto. Qed.

Lemma quiet_attemptFailed attempt error :
  quiet (attemptFailed w attempt error).
Proof. unfold attemptFailed. quiet_auto. Qed.

Hint Resolve quiet_cacheLookup quiet_attemptOnce quiet_attemptFailed : quiet.

Lemma quiet_retryLoop attempts lastError :
  quiet (retryLoop w attempts lastError).
Proof.
  revert lastError. induction attempts as [|attempt rest IH]; intros lastError;
    cbn [retryLoop]; quiet_auto.
Qed.

Hint Resolve quiet_retryLoop : quiet.

Lemma quiet_authorize : quiet (authorize w).
Proof. unfold authorize, networkStage. quiet_auto. Qed.

End Quiet.

(** ** Preview override *)

(** C3, as the code has it.  In KoruWidget, with the preview slot
    populated, [authorize] returns (it does not throw) a response with
    [authorized = true] whose config is the preview object itself; it reads
    nothing from the cache, writes nothing to it, issues no request, and
    leaves the state as it found it.  The predecessor class has no preview
    check. *)
Theorem authorize_preview (w : Widget) (s : State) (preview : WidgetConfig) :
  sdk w = Koru ->
  previewConfig (browser s) = Some preview ->
  exists response,
    outcome (authorize w s) = Return response
    /\ authorized response = true
    /\ config_of response = preview
    /\ count isCacheRead (emitted (authorize w s)) = 0%nat
    /\ count isCacheWrite (emitted (authorize w s)) = 0%nat
    /\ count isRequest (emitted (authorize w s)) = 0%nat
    /\ final (authorize w s) = s.
Proof.
  intros Hsdk Hpreview.
  exists (previewResponse w preview (browser s)).
  unfold authorize, bind, get, previewOf, log; cbn.
  rewrite Hsdk, Hpreview.
  destruct (debug (options w)); cbn; repeat split; reflexivity.
Qed.

(** ** Retry loop *)

Lemma count_schedule l : count isRequest (schedule l) = count isRequest l.
Proof.
  unfold count, schedule. induction l as [|e l IH]; [reflexivity|].
  destruct e; cbn; auto.
Qed.

Lemma count_timer_schedule l :
  count isTimer (schedule l) = count isTimer l.
Proof.
  unfold count, schedule. induction l as [|e l IH]; [reflexivity|].
  destruct e; cbn; auto.
Qed.

Lemma count_paced url ms n : count isRequest (paced url ms n) = n.
Proof.
  induction n as [|[|n] IH]; [reflexivity..|].
  change (paced url ms (S (S n)))
    with (FetchGet url :: SetTimeout ms :: paced url ms (S n)).
  change (S (count isRequest (paced url ms (S n))) = S (S n)).
  now rewrite IH.
Qed.

Section Retry.

Variable w : Widget.

Lemma retryLoop_cons attempt rest lastError s :
  retryLoop w (attempt :: rest) lastError s
  = bind (iteration w attempt)
      (fun r => match r with
                | inl data => ret data
                | inr e => retryLoop w rest (Some e)
                end) s.
Proof. reflexivity. Qed.

(** An attempt whose request fails: the error is captured, one request
    left, and a timer was set exactly when another attempt remains. *)
Lemma iteration_fails attempt s :
  fails (server (browser s) (requests (browser s)) (authUrl w)) ->
  let r := iteration w attempt s in
  outcome r
  = Return (inr (failureOf
                   (server (browser s) (requests (browser s)) (authUrl w))))
  /\ requests (browser (final r)) = S (requests (browser s))
  /\ schedule (emitted r)
     = FetchGet (authUrl w)
       :: (if (attempt <? retryAttempts (options w))%Z
           then [SetTimeout (retryDelay (options w))] else []).
Proof.
  intros Hfail.
  unfold iteration, attemptOnce, attemptFailed, fetch, log, sleep,
    try_catch, bind, get, modify, emit, ret, throw; cbn.
  destruct (debug (options w)); cbn;
    destruct (server (browser s) (requests (browser s)) (authUrl w))
      as [message|status body]; cbn in *;
    try rewrite Hfail; cbn;
    destruct (attempt <? retryAttempts (options w))%Z; cbn; auto.
Qed.

Lemma quiet_iteration attempt : quiet (iteration w attempt).
Proof.
  unfold iteration. apply quiet_try_catch; [|intros e];
    (apply quiet_bind; [|intros ?; apply quiet_ret]).
  - apply quiet_attemptOnce.
  - apply quiet_attemptFailed.
Qed.

(** The loop when every request fails, from any point on: [n] iterations
    remain and [attempt = k]. *)
Lemma retryLoop_all_fail (n : nat) :
  forall (k : Z) (lastError : option Thrown) (s : State),
    k + Z.of_nat n = retryAttempts (options w) + 1 ->
    (forall i, fails (server (browser s) i (authUrl w))) ->
    let r := retryLoop w (seqZ k (Z.of_nat n)) lastError s in
    outcome r
    = Throw match n with
            | O => default (ErrorObj "Authorization failed") lastError
            | S n' =>
                failureOf (server (browser s) (requests (browser s) + n')%nat
                             (authUrl w))
            end
    /\ schedule (emitted r)
       = paced (authUrl w) (retryDelay (options w)) n
    /\ requests (browser (final r)) = (requests (browser s) + n)%nat.
Proof.
  induction n as [|n IH]; intros k lastError s Hk Hfail.
  - rewrite seqZ_nil by reflexivity. cbn. repeat split. lia.
  - rewrite seqZ_cons by lia.
    replace (Z.pred (Z.of_nat (S n))) with (Z.of_nat n) by lia.
    rewrite retryLoop_cons.
    destruct (iteration_fails k s (Hfail _)) as (Ho & Hreq & Hsch).
    destruct (quiet_iteration k s) as (_ & Hserver & _).
    rewrite (bind_returns _ _ _ _ Ho).
    cbv beta iota zeta. cbn [outcome final emitted].
    set (e := failureOf _) in *. set (s1 := final (iteration w k s)) in *.
    destruct (IH (Z.succ k) (Some e) s1) as (Ho' & Hsch' & Hreq').
    { lia. }
    { intros i. rewrite Hserver. apply Hfail. }
    rewrite Ho', schedule_app, Hsch, Hsch', Hreq', Hreq, Hserver.
    repeat split.
    + f_equal. destruct n as [|n']; cbn [default from_option id].
      * subst e. now rewrite Nat.add_0_r.
      * f_equal. f_equal. lia.
    + destruct n as [|n'].
      * destruct (Z.ltb_spec k (retryAttempts (options w))); [lia|].
        reflexivity.
      * destruct (Z.ltb_spec k (retryAttempts (options w))); [|lia].
        reflexivity.
    + lia.
Qed.

(** The cache stage issues no request, sets no timer and leaves the request
    counter alone. *)
Lemma cacheLookup_offline s :
  schedule (emitted (cacheLookup w s)) = []
  /\ requests (browser (final (cacheLookup w s))) = requests (browser s).
Proof.
  unfold cacheLookup, getFromCache, clearCache, getItem, removeItem,
    Date_now, try_catch, bind, get, modify, emit, ret, throw.
  destruct (cache (options w)); cbn; [|auto].
  destruct (localStorage (browser s)) as [m|] eqn:Hstore; cbn; [|auto].
  destruct (m !! getCacheKey w) as [[| |data [t|]]|]; cbn; auto.
  destruct (expired w (clock (browser s)) t); cbn; auto.
  rewrite Hstore; cbn. auto.
Qed.

End Retry.


(** With [retryAttempts <= 0] no request is made and the error is the
    fallback. *)
Lemma authorize_without_attempts (w : Widget) (s : State) :
  retryAttempts (options w) <= 0 ->
  previewConfig (browser s) = None ->
  outcome (cacheLookup w s) = Return None ->
  outcome (authorize w s) = Throw (ErrorObj "Authorization failed")
  /\ count isRequest (emitted (authorize w s)) = 0%nat.
Proof.
  intros HN Hpreview Hcache. unfold authorize.
  rewrite (bind_returns get _ s s eq_refl).
  cbn [outcome final emitted get app].
  replace (previewOf w (browser s)) with (@None WidgetConfig)
    by (unfold previewOf; now destruct (sdk w)).
  rewrite (bind_returns _ _ _ _ Hcache). cbn [outcome final emitted app].
  unfold networkStage. rewrite seqZ_nil by lia.
  split; [reflexivity|].
  rewrite <- count_schedule, !schedule_app.
  now rewrite (proj1 (cacheLookup_offline w s)).
Qed.

(** ** Cache *)

Lemma In_emitted_bind {A B} (m : M A) (k : A -> M B) s e :
  In e (emitted (m s)) -> In e (emitted (bind m k s)).
Proof.
  intros H. destruct (outcome (m s)) as [a|x] eqn:Ho.
  - rewrite (bind_returns _ _ _ _ Ho); cbn. apply in_or_app. now left.
  - now rewrite (bind_throws _ _ _ _ Ho).
Qed.

Lemma In_emitted_bind_r {A B} (m : M A) (k : A -> M B) s a e :
  outcome (m s) = Return a ->
  In e (emitted (k a (final (m s)))) -> In e (emitted (bind m k s)).
Proof.
  intros Ho H. rewrite (bind_returns _ _ _ _ Ho); cbn.
  apply in_or_app. now right.
Qed.

Lemma In_emitted_try_catch {A} (m : M A) h s e :
  In e (emitted (m s)) -> In e (emitted (try_catch m h s)).
Proof.
  intros H. destruct (outcome (m s)) as [a|x] eqn:Ho.
  - now rewrite (try_catch_returns _ _ _ _ Ho).
  - rewrite (try_catch_throws _ _ _ _ Ho); cbn. apply in_or_app. now left.
Qed.

(** The age test in integers: the entry is fresh when at most
    [1000 * cacheDuration] milliseconds passed since its capture. *)
Lemma age_le_iff (now t d : Z) :
  (age now t <= inject_Z d)%Q <-> now - t <= 1000 * d.
Proof. unfold age, Qle, Qdiv, Qmult, Qinv, inject_Z; cbn. lia. Qed.

Lemma expired_false (w : Widget) (now t : Z) :
  (age now t <= inject_Z (cacheDuration (options w)))%Q ->
  expired w now t = false.
Proof.
  intros H. unfold expired. apply negb_false_iff. now apply Qle_bool_iff.
Qed.

Lemma expired_true (w : Widget) (now t : Z) :
  (inject_Z (cacheDuration (options w)) < age now t)%Q ->
  expired w now t = true.
Proof.
  intros H. unfold expired. apply negb_true_iff.
  destruct (Qle_bool _ _) eqn:E; [|reflexivity].
  apply Qle_bool_iff in E. now apply Qlt_not_le in H.
Qed.

(** With at least one attempt allowed, the network stage issues a request
    to the authorization endpoint. *)
Lemma networkStage_requests (w : Widget) (s : State) :
  1 <= retryAttempts (options w) ->
  In (FetchGet (authUrl w)) (emitted (networkStage w s)).
Proof.
  intros HN. unfold networkStage. rewrite seqZ_cons by lia.
  rewrite retryLoop_cons. apply In_emitted_bind.
  unfold iteration. apply In_emitted_try_catch, In_emitted_bind.
  unfold attemptOnce.
  eapply In_emitted_bind_r.
  { unfold log. destruct (debug (options w)); reflexivity. }
  apply In_emitted_bind. unfold fetch. apply In_emitted_bind.
  cbn. now left.
Qed.

(** C2, as the code has it.  Caching enabled, no preview override, and the
    store holds an entry for the key of the instance.  If the age of the
    entry is at most [cacheDuration] seconds, [authorize] returns the
    payload of the entry, issues no request and leaves the state as it is.
    If the age exceeds [cacheDuration], [authorize] removes the entry and
    goes on with the network stage from there: its result is the result of
    that stage, which issues a request when [retryAttempts >= 1]. *)
Theorem authorize_cache_entry (w : Widget) (s : State)
    (m : gmap string Stored) (data : AuthResponse) (t : Z) :
  cache (options w) = true ->
  previewConfig (browser s) = None ->
  localStorage (browser s) = Some m ->
  m !! getCacheKey w = Some (Parsed (Some data) (Some t)) ->
  let r := authorize w s in
  ((age (clock (browser s)) t <= inject_Z (cacheDuration (options w)))%Q ->
   outcome r = Return data
   /\ count isRequest (emitted r) = 0%nat
   /\ final r = s)
  /\ ((inject_Z (cacheDuration (options w)) < age (clock (browser s)) t)%Q ->
      let s' :=
        set_browser
          (with_localStorage (Some (delete (getCacheKey w) m))) s in
      let n := networkStage w s' in
      outcome r = outcome n
      /\ final r = final n
      /\ emitted r
         = GetItem (getCacheKey w) :: RemoveItem (getCacheKey w) :: emitted n
      /\ (1 <= retryAttempts (options w) ->
          In (FetchGet (authUrl w)) (emitted n))).
Proof.
  intros Hcache Hpreview Hstore Hentry r. subst r.
  assert (Hp : previewOf w (browser s) = None)
    by (unfold previewOf; now destruct (sdk w)).
  set (key := getCacheKey w) in *.
  split; intros Hage.
  - apply expired_false in Hage.
    unfold authorize, cacheLookup, getFromCache, getItem, Date_now, log,
      try_catch, bind, get, modify, emit, ret, throw.
    fold key. cbn. rewrite Hp, Hcache, Hstore; cbn.
    rewrite Hentry; cbn. rewrite Hage; cbn.
    destruct (debug (options w)); cbn; repeat split; now destruct s.
  - apply expired_true in Hage. intros s' n.
    split; [|split; [|split]].
    4: { intros HN. now apply networkStage_requests. }
    all: unfold authorize, cacheLookup, getFromCache, clearCache, getItem,
      removeItem, Date_now, try_catch, bind, get, modify, emit, ret, throw;
      fold key; cbn; rewrite Hp, Hcache, Hstore; cbn;
      rewrite Hentry; cbn; rewrite Hage; cbn; rewrite Hstore; cbn;
      fold s'; fold n; now destruct n.
Qed.

(** ** Error boundary *)

Section Lifecycle.

Variable w : Widget.

Lemma handleError_run message error s :
  let line :=
    ConsoleError ("[" +:+ widgetName w +:+ "] " +:+ message +:+ ":") error in
  handleError w message error s
  = if analytics (options w)
    then match errorText w error with
         | inl e => {| outcome := Throw e; final := s; emitted := [line] |}
         | inr text =>
             {| outcome := Return tt;
                final := set_browser
                           (with_requests (S (requests (browser s)))) s;
                emitted := [line;
                            FetchPost (koruUrl w +:+ analyticsPath w)
                              (errorReport w message text)] |}
         end
    else {| outcome := Return tt; final := s; emitted := [line] |}.
Proof.
  cbv zeta. unfold handleError, track, post, bind, get, modify, emit, ret,
    throw.
  destruct (analytics (options w)); [|reflexivity].
  cbn. now destruct (errorText w error).
Qed.

(** The error channel gets the error whatever happens next. *)
Lemma handleError_logs message error s :
  In (ConsoleError ("[" +:+ widgetName w +:+ "] " +:+ message +:+ ":") error)
    (emitted (handleError w message error s)).
Proof.
  rewrite handleError_run.
  destruct (analytics (options w)); [|now left].
  destruct (errorText w error); now left.
Qed.

Lemma errorData_message text message :
  errorData text message !! "message" = Some message.
Proof.
  destruct text as [t|]; cbn [errorData].
  - rewrite lookup_insert_ne by discriminate. apply lookup_singleton_eq.
  - apply lookup_singleton_eq.
Qed.

Lemma handleError_reports message error s :
  reportable w error ->
  outcome (handleError w message error s) = Return tt
  /\ reported w message error (emitted (handleError w message error s)).
Proof.
  intros Hr. unfold reportable in Hr. rewrite handleError_run. cbv zeta.
  destruct (analytics (options w)) eqn:Ha.
  - destruct Hr as [Hr|(text & Hr)]; [discriminate|]. rewrite Hr.
    cbn [outcome emitted]. split; [reflexivity|]. split; [now left|].
    intros _. exists (errorReport w message text).
    split; [right; now left|]. split; [reflexivity|].
    cbn [errorReport event_data].
    apply lookup_union_Some_l, errorData_message.
  - cbn [outcome emitted]. split; [reflexivity|]. split; [now left|].
    intros Ha'. congruence.
Qed.

(** When the value of the field [error] cannot be computed, [handleError]
    throws what the computation throws, after the line on the error
    channel and before any request. *)
Lemma handleError_throws message error e s :
  analytics (options w) = true ->
  errorText w error = inl e ->
  handleError w message error s
  = {| outcome := Throw e; final := s;
       emitted :=
         [ConsoleError ("[" +:+ widgetName w +:+ "] " +:+ message +:+ ":")
            error] |}.
Proof. intros Ha He. rewrite handleError_run. cbv zeta. now rewrite Ha, He. Qed.

(** A [try] whose [catch] is [handleError]: what the [try] block throws
    reaches the error channel; the call completes normally when the error
    can be reported, and throws what [handleError] throws otherwise. *)
Lemma boundary (body : M unit) (message : string) (s : State) :
  let r := try_catch body (fun error => handleError w message error) s in
  (outcome (body s) = Return tt -> r = body s)
  /\ (forall e, outcome (body s) = Throw e ->
      In (ConsoleError ("[" +:+ widgetName w +:+ "] " +:+ message +:+ ":") e)
        (emitted r)
      /\ (reportable w e ->
          outcome r = Return tt /\ reported w message e (emitted r))
      /\ (forall e', analytics (options w) = true ->
          errorText w e = inl e' ->
          outcome r = Throw e'
          /\ final r = final (body s)
          /\ emitted r
             = emitted (body s)
               ++ [ConsoleError
                     ("[" +:+ widgetName w +:+ "] " +:+ message +:+ ":") e])).
Proof.
  cbv zeta. split.
  - intros Ho. apply (try_catch_returns _ _ _ _ Ho).
  - intros e Ho. rewrite (try_catch_throws _ _ _ _ Ho); cbn [outcome emitted].
    split; [|split].
    + apply in_or_app. right. apply handleError_logs.
    + intros Hr.
      destruct (handleError_reports message e (final (body s)) Hr)
        as (H0 & H1 & H2).
      split; [exact H0|]. split.
      * apply in_or_app. now right.
      * intros Ha. destruct (H2 Ha) as (b & Hb & Hb').
        exists b. split; [apply in_or_app; now right|exact Hb'].
    + intros e' Ha He'. rewrite (handleError_throws _ _ _ _ Ha He').
      cbn [outcome final emitted]. auto.
Qed.

Lemma boundary_handled (body : M unit) (message : string) (s : State) e :
  outcome (body s) = Throw e ->
  handled w message e
    (try_catch body (fun error => handleError w message error) s).
Proof.
  intros Ho. destruct (boundary body message s) as (_ & H).
  destruct (H e Ho) as (H1 & H2 & _). now split.
Qed.

(** Where the errors of [start] come from: each of them leaves the [try]
    block as it was thrown. *)
Lemma startBody_waitForDOM_throws s e :
  outcome (waitForDOM s) = Throw e -> outcome (startBody w s) = Throw e.
Proof. intros H. unfold startBody. now rewrite (bind_throws _ _ _ _ H). Qed.

Lemma startBody_authorize_throws s e :
  outcome (waitForDOM s) = Return tt ->
  outcome (authorize w (final (waitForDOM s))) = Throw e ->
  outcome (startBody w s) = Throw e.
Proof.
  intros H1 H2. unfold startBody.
  rewrite (bind_returns _ _ _ _ H1); cbn [outcome].
  now rewrite (bind_throws _ _ _ _ H2).
Qed.

Lemma startBody_authorized s a :
  outcome (waitForDOM s) = Return tt ->
  outcome (authorize w (final (waitForDOM s))) = Return a ->
  authorized a = true ->
  let s2 := authorizedState a (final (authorize w (final (waitForDOM s)))) in
  let before := emitted (waitForDOM s)
                ++ emitted (authorize w (final (waitForDOM s))) in
  startBody w s
  = match onInit (hooks w) (config_of a) s2 with
    | (Throw e, s3) =>
        {| outcome := Throw e; final := s3;
           emitted := before ++ [Hook (OnInit (config_of a))] |}
    | (Return _, s3) =>
        match onRender (hooks w) (config (this s3)) s3 with
        | (Throw e, s4) =>
            {| outcome := Throw e; final := s4;
               emitted := before ++ [Hook (OnInit (config_of a));
                                     Hook (OnRender (config (this s3)))] |}
        | (Return _, s4) =>
            let r := (log w "Widget started successfully";;
                      if analytics (options w)
                      then track w "widget_loaded"
                             {[ "widget" := widgetName w;
                                "version" := widgetVersion w ]}
                      else ret tt)
                       (set_this (with_isInitialized true) s4) in
            {| outcome := outcome r; final := final r;
               emitted := before ++ [Hook (OnInit (config_of a));
                                     Hook (OnRender (config (this s3)))]
                          ++ emitted r |}
        end
    end.
Proof.
  intros H1 H2 Ha. cbv zeta. unfold startBody, authorizedState.
  unfold bind at 1.
  destruct (waitForDOM s) as [o1 s1 l1].
  cbn [outcome final emitted] in H1, H2 |- *. subst o1.
  unfold bind at 1.
  destruct (authorize w s1) as [o2 s2 l2].
  cbn [outcome final emitted] in H2 |- *. subst o2.
  unfold readAuthData, call, bind, get, modify, ret; cbn.
  rewrite Ha; cbn.
  destruct (onInit (hooks w) (config_of a) _) as [[[]|e] s3]; cbn.
  2: { now rewrite <- app_assoc. }
  destruct (onRender (hooks w) (config (this s3)) s3) as [[[]|e] s4]; cbn.
  2: { now rewrite <- app_assoc. }
  destruct (log w "Widget started successfully" _) as [[[]|e] s5 l5]; cbn.
  2: { now rewrite <- !app_assoc. }
  destruct (analytics (options w)); cbn.
  - destruct (track w "widget_loaded" _ s5) as [o6 s6 l6].
    now rewrite <- !app_assoc.
  - now rewrite <- !app_assoc.
Qed.

Lemma startBody_onInit_throws s a e s3 :
  outcome (waitForDOM s) = Return tt ->
  outcome (authorize w (final (waitForDOM s))) = Return a ->
  authorized a = true ->
  onInit (hooks w) (config_of a)
    (authorizedState a (final (authorize w (final (waitForDOM s)))))
  = (Throw e, s3) ->
  outcome (startBody w s) = Throw e.
Proof.
  intros H1 H2 Ha Hinit. rewrite (startBody_authorized s a H1 H2 Ha).
  cbv zeta. now rewrite Hinit.
Qed.

Lemma startBody_onRender_throws s a e s3 s4 :
  outcome (waitForDOM s) = Return tt ->
  outcome (authorize w (final (waitForDOM s))) = Return a ->
  authorized a = true ->
  onInit (hooks w) (config_of a)
    (authorizedState a (final (authorize w (final (waitForDOM s)))))
  = (Return tt, s3) ->
  onRender (hooks w) (config (this s3)) s3 = (Throw e, s4) ->
  outcome (startBody w s) = Throw e.
Proof.
  intros H1 H2 Ha Hinit Hrender. rewrite (startBody_authorized s a H1 H2 Ha).
  cbv zeta. now rewrite Hinit, Hrender.
Qed.

End Lifecycle.

(** C9, at an input on which the code departs from it.  Every hook of the
    widget throws a value that [String] cannot convert, and analytics is
    on.  [handleError] writes its line to the error channel and then throws
    the [TypeError] of the conversion, which it evaluates outside the [try]
    of [track]: [start], [stop] and [reload] throw into their caller, and no
    telemetry request is made. *)
Theorem lifecycle_throws_from_handleError :
  let s := atTime ∅ 1000000 grants created in
  let e := typeError "Cannot convert object to primitive value" in
  (outcome (start (hostile Koru) s) = Throw e
   /\ In (ConsoleError "[demo] Failed to start widget:" bare)
        (emitted (start (hostile Koru) s))
   /\ count isPost (emitted (start (hostile Koru) s)) = 0%nat)
  /\ (outcome (stop (hostile Koru) s) = Throw e
      /\ emitted (stop (hostile Koru) s)
         = [Hook OnDestroy; ConsoleError "[demo] Failed to stop widget:" bare])
  /\ (outcome (reload (hostile Koru) s) = Throw e
      /\ In (ConsoleError "[demo] Failed to reload widget:" bare)
           (emitted (reload (hostile Koru) s))
      /\ count isPost (emitted (reload (hostile Koru) s)) = 0%nat)
  /\ outcome (start (hostile AppManager) s) = Throw e
  /\ outcome (stop (hostile AppManager) s) = Throw e
  /\ outcome (reload (hostile AppManager) s) = Throw e.
Proof.
  cbv zeta. repeat split; try reflexivity; vm_compute; tauto.
Qed.

(** ** stop *)

Lemma no_hook_In l h :
  Forall (fun e => isHook e = false) l -> ~ In (Hook h) l.
Proof.
  intros Hall Hin. rewrite Forall_forall in Hall.
  apply list_elem_of_In, Hall in Hin. discriminate.
Qed.

Lemma count_none (p : Event -> bool) l :
  Forall (fun e => p e = false) l -> count p l = 0%nat.
Proof.
  unfold count. induction 1 as [|e l He _ IH]; [reflexivity|].
  cbn. now rewrite He.
Qed.

Lemma no_hook_no_destroy l :
  Forall (fun e => isHook e = false) l ->
  Forall (fun e => isDestroy e = false) l.
Proof.
  intros Hall. eapply Forall_impl; [exact Hall|].
  intros [] H; try reflexivity. discriminate.
Qed.

Section Stop.

Variable w : Widget.

Lemma log_run message s :
  log w message s
  = {| outcome := Return tt; final := s;
       emitted := if debug (options w)
                  then [ConsoleLog ("[" +:+ widgetName w +:+ "]") message]
                  else [] |}.
Proof. unfold log. now destruct (debug (options w)). Qed.

(** What [stop] does, by the outcome of the hook. *)
Lemma stop_run s :
  stop w s
  = match onDestroy (hooks w) s with
    | (Return _, s1) =>
        {| outcome := Return tt;
           final := set_this (with_isInitialized false) s1;
           emitted := Hook OnDestroy
                      :: emitted (log w "Widget stopped" s1) |}
    | (Throw e, s1) =>
        let r := handleError w "Failed to stop widget" e s1 in
        {| outcome := outcome r; final := final r;
           emitted := Hook OnDestroy :: emitted r |}
    end.
Proof.
  unfold stop, stopBody, try_catch, bind, call, modify.
  destruct (onDestroy (hooks w) s) as [[[]|e] s1].
  - rewrite !log_run. reflexivity.
  - cbv zeta. now destruct (handleError w "Failed to stop widget" e s1).
Qed.

Lemma stop_destroys_once s : count isDestroy (emitted (stop w s)) = 1%nat.
Proof.
  rewrite stop_run.
  destruct (onDestroy (hooks w) s) as [[[]|e] s1]; cbv zeta; cbn [emitted].
  - change (S (count isDestroy (emitted (log w "Widget stopped" s1))) = 1%nat).
    f_equal. apply count_none, no_hook_no_destroy, quiet_log.
  - change (S (count isDestroy
                 (emitted (handleError w "Failed to stop widget" e s1)))
            = 1%nat).
    f_equal. apply count_none, no_hook_no_destroy, quiet_handleError.
Qed.

End Stop.

(** C4, as the code has it.  [stop] has no guard on the state of the
    instance.  When [onDestroy] does not throw, two calls in succession
    both complete without throwing, and each of them invokes [onDestroy]
    once, so the hook runs twice: the second call is not a no-op. *)
Theorem stop_twice (w : Widget) (s : State) :
  let first := stop w s in
  let second := stop w (final first) in
  fst (onDestroy (hooks w) s) = Return tt ->
  fst (onDestroy (hooks w) (final first)) = Return tt ->
  outcome first = Return tt
  /\ outcome second = Return tt
  /\ count isDestroy (emitted first) = 1%nat
  /\ count isDestroy (emitted second) = 1%nat
  /\ count isDestroy (emitted first ++ emitted second) = 2%nat.
Proof.
  cbv zeta. intros H1 H2.
  rewrite count_app, !stop_destroys_once.
  repeat split; rewrite stop_run.
  - destruct (onDestroy (hooks w) s) as [[[]|e] s1]; [reflexivity|].
    discriminate.
  - destruct (onDestroy (hooks w) (final (stop w s))) as [[[]|e] s1];
      [reflexivity|discriminate].
Qed.

(** C5, as the code has it.  [stop] invokes [onDestroy] first.  If the hook
    returns, the initialized flag is cleared and [stop] returns.  If the
    hook throws, the assignment that clears the flag is skipped, so the
    flag stays as the hook left it, and the error is written to the error
    channel; when the error can be reported in full (analytics is off, or
    the telemetry field can be computed from the thrown value), [stop]
    returns without throwing and, with analytics on, has sent the
    [widget_error] event. *)
Theorem stop_by_hook_outcome (w : Widget) (s : State) :
  (exists l, emitted (stop w s) = Hook OnDestroy :: l)
  /\ (forall s1,
        onDestroy (hooks w) s = (Return tt, s1) ->
        outcome (stop w s) = Return tt
        /\ isInitialized (this (final (stop w s))) = false)
  /\ (forall e s1,
        onDestroy (hooks w) s = (Throw e, s1) ->
        isInitialized (this (final (stop w s))) = isInitialized (this s1)
        /\ In (ConsoleError ("[" +:+ widgetName w +:+ "] "
                               +:+ "Failed to stop widget" +:+ ":") e)
             (emitted (stop w s))
        /\ (reportable w e ->
            outcome (stop w s) = Return tt
            /\ reported w "Failed to stop widget" e (emitted (stop w s)))).
Proof.
  rewrite stop_run. split; [|split].
  - destruct (onDestroy (hooks w) s) as [[[]|e] s1]; eexists; reflexivity.
  - intros s1 H. now rewrite H.
  - intros e s1 H. rewrite H. cbv zeta. cbn [outcome final emitted].
    split; [|split].
    + now destruct (quiet_handleError w "Failed to stop widget" e s1)
        as (-> & _).
    + right. apply handleError_logs.
    + intros Hr.
      destruct (handleError_reports w "Failed to stop widget" e s1 Hr)
        as (H0 & H1 & H2).
      split; [exact H0|]. split; [now right|].
      intros Ha. destruct (H2 Ha) as (b & Hin & Hb).
      exists b. split; [now right|exact Hb].
Qed.

(** ** start *)

Section Start.

Variable w : Widget.

Lemma hook_in_boundary (body : M unit) message s h :
  In (Hook h)
    (emitted (try_catch body (fun error => handleError w message error) s)) ->
  In (Hook h) (emitted (body s)).
Proof.
  destruct (outcome (body s)) as [[]|e] eqn:Ho.
  - now rewrite (try_catch_returns _ _ _ _ Ho).
  - rewrite (try_catch_throws _ _ _ _ Ho); cbn [emitted].
    intros [H|H]%in_app_or; [exact H|].
    destruct (quiet_handleError w message e (final (body s)))
      as (_ & _ & Hq).
    now apply no_hook_In in H.
Qed.

Lemma startBody_unauthorized s a :
  outcome (waitForDOM s) = Return tt ->
  outcome (authorize w (final (waitForDOM s))) = Return a ->
  authorized a = false ->
  startBody w s
  = {| outcome := Return tt;
       final := set_this (with_authData (Some a))
                  (final (authorize w (final (waitForDOM s))));
       emitted := emitted (waitForDOM s)
                  ++ emitted (authorize w (final (waitForDOM s)))
                  ++ emitted (log w "Widget not authorized" s) |}.
Proof.
  intros H1 H2 Ha. unfold startBody.
  unfold bind at 1.
  destruct (waitForDOM s) as [o1 s1 l1].
  cbn [outcome final emitted] in H1, H2 |- *. subst o1.
  unfold bind at 1.
  destruct (authorize w s1) as [o2 s2 l2].
  cbn [outcome final emitted] in H2 |- *. subst o2.
  unfold readAuthData, bind, get, modify, ret; cbn.
  rewrite Ha; cbn. rewrite !log_run. reflexivity.
Qed.

(** The events of a [start] that stops before the hooks. *)
Lemma startBody_quiet_prefix s :
  Forall (fun e => isHook e = false)
    (emitted (waitForDOM s)
     ++ emitted (authorize w (final (waitForDOM s)))).
Proof.
  apply Forall_app. split.
  - apply quiet_waitForDOM.
  - apply quiet_authorize.
Qed.

Lemma start_unauthorized s a :
  outcome (waitForDOM s) = Return tt ->
  outcome (authorize w (final (waitForDOM s))) = Return a ->
  authorized a = false ->
  outcome (start w s) = Return tt
  /\ count isHook (emitted (start w s)) = 0%nat
  /\ this (final (start w s)) = with_authData (Some a) (this s).
Proof.
  intros H1 H2 Ha.
  pose proof (startBody_unauthorized s a H1 H2 Ha) as Hrun.
  assert (Ho : outcome (startBody w s) = Return tt) by now rewrite Hrun.
  unfold start. rewrite (try_catch_returns _ _ _ _ Ho), Hrun.
  cbn [outcome final emitted]. repeat split.
  - apply count_none. rewrite app_assoc. apply Forall_app. split.
    + apply startBody_quiet_prefix.
    + apply quiet_log.
  - unfold set_this. cbn [this].
    destruct (quiet_authorize w (final (waitForDOM s))) as (-> & _).
    now destruct (quiet_waitForDOM s) as (-> & _).
Qed.

(** Every hook call of a [start] comes after an authorized result. *)
Lemma start_hooks s h :
  In (Hook h) (emitted (start w s)) ->
  exists a,
    outcome (waitForDOM s) = Return tt
    /\ outcome (authorize w (final (waitForDOM s))) = Return a
    /\ authorized a = true
    /\ (h = OnInit (config_of a)
        \/ exists s3,
             onInit (hooks w) (config_of a)
               (authorizedState a
                  (final (authorize w (final (waitForDOM s)))))
             = (Return tt, s3)
             /\ h = OnRender (config (this s3))).
Proof.
  intros Hin. apply hook_in_boundary in Hin.
  pose proof (startBody_quiet_prefix s) as Hprefix.
  destruct (outcome (waitForDOM s)) as [[]|e] eqn:H1.
  2: { exfalso. unfold startBody in Hin.
       rewrite (bind_throws _ _ _ _ H1) in Hin. cbn [emitted] in Hin.
       apply Forall_app in Hprefix as (Hw & _).
       now apply no_hook_In in Hin. }
  destruct (outcome (authorize w (final (waitForDOM s)))) as [a|e] eqn:H2.
  2: { exfalso. unfold startBody in Hin.
       rewrite (bind_returns _ _ _ _ H1) in Hin. cbn [emitted final] in Hin.
       rewrite (bind_throws _ _ _ _ H2) in Hin. cbn [emitted] in Hin.
       now apply no_hook_In in Hin. }
  destruct (authorized a) eqn:Ha.
  2: { exfalso. rewrite (startBody_unauthorized s a H1 H2 Ha) in Hin.
       cbn [emitted] in Hin. rewrite app_assoc in Hin.
       apply in_app_or in Hin as [Hin|Hin].
       - now apply no_hook_In in Hin.
       - destruct (quiet_log w "Widget not authorized" s) as (_ & _ & Hq).
         now apply no_hook_In in Hin. }
  exists a. split; [reflexivity|split; [reflexivity|split; [exact Ha|]]].
  rewrite (startBody_authorized w s a H1 H2 Ha) in Hin. cbv zeta in Hin.
  destruct (onInit (hooks w) (config_of a) _) as [[[]|e] s3] eqn:Hinit.
  2: { cbn [emitted] in Hin. apply in_app_or in Hin as [Hin|Hin].
       - now apply no_hook_In in Hin.
       - destruct Hin as [[= <-]|[]]. now left. }
  assert (Htail : forall l,
             Forall (fun e => isHook e = false) l ->
             In (Hook h)
               ((emitted (waitForDOM s)
                 ++ emitted (authorize w (final (waitForDOM s))))
                ++ [Hook (OnInit (config_of a));
                    Hook (OnRender (config (this s3)))] ++ l) ->
             h = OnInit (config_of a) \/ h = OnRender (config (this s3))).
  { intros l Hl [H|H]%in_app_or; [now apply no_hook_In in H|].
    destruct H as [[= <-]|[[= <-]|H]]; [now left|now right|].
    now apply no_hook_In in H. }
  destruct (onRender (hooks w) (config (this s3)) s3) as [[[]|e] s4].
  - cbn [emitted] in Hin. apply Htail in Hin as [->| ->].
    + now left.
    + right. now exists s3.
    + apply quiet_bind; [apply quiet_log|intros _].
      destruct (analytics (options w)); [apply quiet_track|apply quiet_ret].
  - cbn [emitted] in Hin. rewrite <- (app_nil_r [_; _]) in Hin.
    apply Htail in Hin as [->| ->]; [now left| |constructor].
    right. now exists s3.
Qed.

End Start.

(** C7, as the code has it.  When the authorization returns a result that
    is not authorized, [start] returns without throwing, invokes no hook,
    and leaves the initialized flag and the stored config as they were
    (only [authData] changes).  A hook is invoked by [start] only after a
    result whose authorized flag is true: [onInit] with the config of that
    result, and [onRender], once [onInit] returned, with the stored config
    as [onInit] left it, which is the config of the result when [onInit]
    does not reassign the field. *)
Theorem start_gate (w : Widget) (s : State) :
  (forall a,
      outcome (waitForDOM s) = Return tt ->
      outcome (authorize w (final (waitForDOM s))) = Return a ->
      authorized a = false ->
      outcome (start w s) = Return tt
      /\ count isHook (emitted (start w s)) = 0%nat
      /\ isInitialized (this (final (start w s))) = isInitialized (this s)
      /\ config (this (final (start w s))) = config (this s))
  /\ (forall h,
        In (Hook h) (emitted (start w s)) ->
        exists a,
          outcome (waitForDOM s) = Return tt
          /\ outcome (authorize w (final (waitForDOM s))) = Return a
          /\ authorized a = true
          /\ (h = OnInit (config_of a)
              \/ exists s3,
                   onInit (hooks w) (config_of a)
                     (authorizedState a
                        (final (authorize w (final (waitForDOM s)))))
                   = (Return tt, s3)
                   /\ h = OnRender (config (this s3))))
  /\ ((forall c s0,
         config (this (snd (onInit (hooks w) c s0))) = config (this s0)) ->
      forall h,
        In (Hook h) (emitted (start w s)) ->
        exists a,
          outcome (authorize w (final (waitForDOM s))) = Return a
          /\ authorized a = true
          /\ (h = OnInit (config_of a) \/ h = OnRender (config_of a))).
Proof.
  split; [|split].
  - intros a H1 H2 Ha.
    destruct (start_unauthorized w s a H1 H2 Ha) as (Ho & Hc & Ht).
    rewrite Ht. auto.
  - apply start_hooks.
  - intros Hkeeps h Hin.
    destruct (start_hooks w s h Hin)
      as (a & _ & H2 & Ha & [Hh | (s3 & Hinit & Hh)]);
      exists a; (split; [exact H2|split; [exact Ha|]]).
    + now left.
    + right. rewrite Hh. f_equal.
      specialize (Hkeeps (config_of a)
                    (authorizedState a
                       (final (authorize w (final (waitForDOM s)))))).
      rewrite Hinit in Hkeeps. exact Hkeeps.
Qed.

(** ** reload *)

Section Reload.

Variable w : Widget.

Lemma clearCache_returns s : outcome (clearCache w s) = Return tt.
Proof.
  unfold clearCache, removeItem, try_catch, bind, get, modify, emit, ret,
    throw; cbn.
  now destruct (localStorage (browser s)).
Qed.

(** The [try] block of [reload] once the fresh authorization returned [a]:
    [authData] is assigned first, then the flag decides. *)
Lemma reloadBody_after_authorize s a :
  outcome (authorize w (final (clearCache w s))) = Return a ->
  let before := emitted (clearCache w s)
                ++ emitted (authorize w (final (clearCache w s))) in
  let s1 := set_this (with_authData (Some a))
              (final (authorize w (final (clearCache w s)))) in
  reloadBody w s
  = if authorized a
    then let r := reloadTail w (config_of a) s1 in
         {| outcome := outcome r; final := final r;
            emitted := before ++ emitted r |}
    else {| outcome := Return tt; final := s1; emitted := before |}.
Proof.
  intros H. cbv zeta. unfold reloadBody, reloadTail.
  pose proof (clearCache_returns s) as H0.
  unfold bind at 1.
  destruct (clearCache w s) as [o0 s0 l0].
  cbn [outcome final emitted] in H, H0 |- *. subst o0.
  unfold bind at 1.
  destruct (authorize w s0) as [o1 s1 l1].
  cbn [outcome final emitted] in H |- *. subst o1.
  unfold readAuthData. unfold bind at 1 2 3, get, modify, ret; cbn.
  destruct (authorized a); cbn.
  - match goal with
    | |- context [bind ?m ?k ?x] => destruct (bind m k x) as [o2 s2 l2]
    end.
    cbn. now rewrite app_assoc.
  - now rewrite app_nil_r.
Qed.

Lemma reload_quiet_prefix s :
  Forall (fun e => isHook e = false)
    (emitted (clearCache w s)
     ++ emitted (authorize w (final (clearCache w s)))).
Proof.
  apply Forall_app. split.
  - apply quiet_clearCache.
  - apply quiet_authorize.
Qed.

Lemma reload_fields_before_hooks s :
  this (final (authorize w (final (clearCache w s)))) = this s.
Proof.
  destruct (quiet_authorize w (final (clearCache w s))) as (-> & _).
  now destruct (quiet_clearCache w s) as (-> & _).
Qed.

Lemma reload_unauthorized_run s a :
  outcome (authorize w (final (clearCache w s))) = Return a ->
  authorized a = false ->
  reload w s
  = {| outcome := Return tt;
       final := set_this (with_authData (Some a))
                  (final (authorize w (final (clearCache w s))));
       emitted := emitted (clearCache w s)
                  ++ emitted (authorize w (final (clearCache w s))) |}.
Proof.
  intros H Ha. pose proof (reloadBody_after_authorize s a H) as Hrun.
  cbv zeta in Hrun. rewrite Ha in Hrun.
  unfold reload. rewrite try_catch_returns with (a := tt); now rewrite Hrun.
Qed.

(** Where the errors of [stop] and [reload] come from. *)
Lemma stopBody_onDestroy_throws s e s1 :
  onDestroy (hooks w) s = (Throw e, s1) -> outcome (stopBody w s) = Throw e.
Proof.
  intros H. unfold stopBody, bind, call. now rewrite H.
Qed.

Lemma reloadBody_authorize_throws s e :
  outcome (authorize w (final (clearCache w s))) = Throw e ->
  outcome (reloadBody w s) = Throw e.
Proof.
  intros H. unfold reloadBody.
  rewrite (bind_returns _ _ _ _ (clearCache_returns s)); cbn [outcome].
  now rewrite (bind_throws _ _ _ _ H).
Qed.

Lemma reloadBody_hook_throws s a e :
  outcome (authorize w (final (clearCache w s))) = Return a ->
  authorized a = true ->
  outcome (reloadTail w (config_of a)
             (set_this (with_authData (Some a))
                (final (authorize w (final (clearCache w s))))))
  = Throw e ->
  outcome (reloadBody w s) = Throw e.
Proof.
  intros H Ha He. rewrite (reloadBody_after_authorize s a H).
  cbv zeta. now rewrite Ha.
Qed.

End Reload.

(** C8. When the fresh authorization of [reload] returns a result that is
    not authorized, [reload] returns without throwing, invokes no hook
    (neither [onConfigUpdate] nor [onDestroy] nor [onRender]) and leaves the
    stored config as it was. *)
Theorem reload_unauthorized (w : Widget) (s : State) (a : AuthResponse) :
  outcome (authorize w (final (clearCache w s))) = Return a ->
  authorized a = false ->
  outcome (reload w s) = Return tt
  /\ count isHook (emitted (reload w s)) = 0%nat
  /\ config (this (final (reload w s))) = config (this s).
Proof.
  intros H Ha. rewrite (reload_unauthorized_run w s a H Ha).
  cbn [outcome final emitted]. repeat split.
  - apply count_none, reload_quiet_prefix.
  - unfold set_this. cbn [this]. now rewrite reload_fields_before_hooks.
Qed.

(** C10. [reload] assigns the fresh result to [authData] before it looks at
    the flag: whatever the flag, the run goes on from a state whose
    [authData] is the fresh result.  When the result is not authorized the
    run ends there, so [authData] holds the new result while [config] is
    still the one stored before, whatever the config of the new result. *)
Theorem reload_overwrites_authData (w : Widget) (s : State)
    (a : AuthResponse) :
  outcome (authorize w (final (clearCache w s))) = Return a ->
  let s1 := set_this (with_authData (Some a))
              (final (authorize w (final (clearCache w s)))) in
  authData (this s1) = Some a
  /\ config (this s1) = config (this s)
  /\ (authorized a = true ->
      final (reload w s)
      = final (try_catch (reloadTail w (config_of a))
                 (fun error => handleError w "Failed to reload widget" error)
                 s1))
  /\ (authorized a = false ->
      final (reload w s) = s1
      /\ authData (this (final (reload w s))) = Some a
      /\ config (this (final (reload w s))) = config (this s)).
Proof.
  intros H s1.
  assert (Hc : config (this s1) = config (this s)).
  { subst s1. unfold set_this. cbn [this].
    now rewrite reload_fields_before_hooks. }
  split; [reflexivity|]. split; [exact Hc|]. split; intros Ha.
  - pose proof (reloadBody_after_authorize w s a H) as Hrun.
    cbv zeta in Hrun. rewrite Ha in Hrun. fold s1 in Hrun.
    unfold reload, try_catch. rewrite Hrun.
    destruct (reloadTail w (config_of a) s1) as [[[]|e] s2 l2];
      cbn [outcome final emitted].
    + reflexivity.
    + now destruct (handleError w "Failed to reload widget" e s2).
  - rewrite (reload_unauthorized_run w s a H Ha). cbn [final]. fold s1.
    auto.
Qed.

(** ** Cache key *)

Lemma append_String (c : ascii) (x y : string) :
  String c x +:+ y = String c (x +:+ y).
Proof. reflexivity. Qed.

Lemma append_empty (y : string) : "" +:+ y = y.
Proof. reflexivity. Qed.

Ltac unfold_append := rewrite ?append_String, ?append_empty.

Lemma append_cancel_l (p x y : string) : p +:+ x = p +:+ y -> x = y.
Proof.
  induction p as [|c p IH]; unfold_append; [auto|]. intros [= H]. auto.
Qed.

Lemma plain_underscore (x y : string) : plain (x +:+ String "_" y) = false.
Proof.
  induction x as [|c x IH]; unfold_append; cbn [plain]; [reflexivity|].
  rewrite IH. apply andb_false_r.
Qed.

Lemma plain_head (c : ascii) (x : string) :
  plain (String c x) = true -> c <> ("_" : ascii) /\ plain x = true.
Proof.
  cbn [plain]. intros [Hc Hx]%andb_true_iff. split; [|exact Hx].
  intros ->. discriminate.
Qed.

(** The separator is found again when the website ids have no underscore,
    and also when the app ids have none. *)
Lemma split_unique (w1 a1 w2 a2 : string) :
  (plain w1 = true /\ plain w2 = true)
  \/ (plain a1 = true /\ plain a2 = true) ->
  w1 +:+ "_" +:+ a1 = w2 +:+ "_" +:+ a2 ->
  w1 = w2 /\ a1 = a2.
Proof.
  revert w2. induction w1 as [|c w1 IH]; intros [|c' w2] Hplain;
    unfold_append.
  - intros [= ->]. auto.
  - intros [= <- ->]. exfalso. destruct Hplain as [[_ H]|[H _]].
    + now apply plain_head in H as [? _].
    + now rewrite plain_underscore in H.
  - intros [= -> <-]. exfalso. destruct Hplain as [[H _]|[_ H]].
    + now apply plain_head in H as [? _].
    + now rewrite plain_underscore in H.
  - intros [= -> H]. destruct (IH w2) as [-> ->]; [|exact H|auto].
    destruct Hplain as [[H1 H2]|H12]; [left|now right].
    apply plain_head in H1 as [_ H1]. apply plain_head in H2 as [_ H2]. auto.
Qed.

(** C6, as the code has it.  The key is a function of the class and of the
    pair (website id, app id) alone, so it is the same on every call; and
    two distinct pairs have distinct keys provided the two website ids, or
    the two app ids, contain no underscore. *)
Theorem getCacheKey_of_pair (wa wb : Widget) :
  sdk wa = sdk wb ->
  ((websiteId wa, appId wa) = (websiteId wb, appId wb) ->
   getCacheKey wa = getCacheKey wb)
  /\ ((plain (websiteId wa) = true /\ plain (websiteId wb) = true)
      \/ (plain (appId wa) = true /\ plain (appId wb) = true) ->
      (websiteId wa, appId wa) <> (websiteId wb, appId wb) ->
      getCacheKey wa <> getCacheKey wb).
Proof.
  intros Hsdk. unfold getCacheKey, cachePrefix. rewrite Hsdk. split.
  - intros [= H1 H2]. now rewrite H1, H2.
  - intros Hplain Hne Hkey. apply append_cancel_l in Hkey.
    apply split_unique in Hkey as [H1 H2]; [|exact Hplain].
    apply Hne. now rewrite H1, H2.
Qed.

(** * Examples *)

(** ** Retry loop *)


(** ** Cache *)

(** Half a second after the capture the entry is served; two hours later
    it is removed and the network is tried. *)
Lemma authorize_cache_entry_witness :
  (let r := authorize demo (atTime storeOfDemo 1000500 down created) in
   outcome r = Return granted
   /\ count isRequest (emitted r) = 0%nat
   /\ final r = atTime storeOfDemo 1000500 down created)
  /\ (let r := authorize demo (atTime storeOfDemo 8200000 down created) in
      let n := networkStage demo (atTime ∅ 8200000 down created) in
      outcome r = outcome n
      /\ final r = final n
      /\ emitted r
         = GetItem "koru_widget_site-1_app-1"
           :: RemoveItem "koru_widget_site-1_app-1" :: emitted n
      /\ In (FetchGet (authUrl demo)) (emitted n)).
Proof.
  split.
  - apply (proj1 (authorize_cache_entry demo
                    (atTime storeOfDemo 1000500 down created)
                    storeOfDemo granted 1000000
                    eq_refl eq_refl eq_refl eq_refl)).
    unfold age, Qle; cbn. lia.
  - pose proof (proj2 (authorize_cache_entry demo
                         (atTime storeOfDemo 8200000 down created)
                         storeOfDemo granted 1000000
                         eq_refl eq_refl eq_refl eq_refl)) as H.
    cbv zeta in H.
    destruct H as (H1 & H2 & H3 & H4).
    { unfold age, Qlt; cbn. lia. }
    split; [exact H1|split; [exact H2|split; [exact H3|]]].
    apply H4. cbn. lia.
Defined.

(** C2 fails as stated.  Caching is on, there is no preview override and
    the entry is two hours old, with [retryAttempts] 0: the entry is
    removed, no request is made, and [authorize] throws the fallback
    error. *)
Lemma authorize_cache_entry_counterexample :
  let s := atTime storeOfDemo 8200000 grants created in
  let r := authorize impatient s in
  cache (options impatient) = true
  /\ previewConfig (browser s) = None
  /\ storeOfDemo !! getCacheKey impatient
     = Some (Parsed (Some granted) (Some 1000000))
  /\ (inject_Z (cacheDuration (options impatient)) < age 8200000 1000000)%Q
  /\ emitted r = [GetItem "koru_widget_site-1_app-1";
                  RemoveItem "koru_widget_site-1_app-1"]
  /\ count isRequest (emitted r) = 0%nat
  /\ outcome r = Throw (ErrorObj "Authorization failed").
Proof.
  cbv zeta. repeat split; try reflexivity.
Qed.

(** ** Preview override *)

(** C3 fails as stated.  The preview slot is populated and the instance is
    of the predecessor class, which has no preview check: [authorize]
    reads the cache, makes three requests to a server that is down, and
    throws. *)
Lemma authorize_preview_counterexample :
  let r := authorize legacy previewing in
  previewConfig (browser previewing) = Some {[ "title" := JStr "Draft" ]}
  /\ count isCacheRead (emitted r) = 1%nat
  /\ count isRequest (emitted r) = 3%nat
  /\ outcome r = Throw (ErrorObj "Authorization failed: 503")
  /\ ~ (exists response,
          outcome r = Return response
          /\ count isCacheRead (emitted r) = 0%nat
          /\ count isRequest (emitted r) = 0%nat).
Proof.
  cbv zeta. repeat split; try reflexivity.
  intros (response & H & _). vm_compute in H. discriminate.
Qed.

Lemma authorize_preview_witness :
  exists response,
    outcome (authorize demo previewing) = Return response
    /\ authorized response = true
    /\ config_of response = {[ "title" := JStr "Draft" ]}
    /\ count isCacheRead (emitted (authorize demo previewing)) = 0%nat
    /\ count isCacheWrite (emitted (authorize demo previewing)) = 0%nat
    /\ count isRequest (emitted (authorize demo previewing)) = 0%nat
    /\ final (authorize demo previewing) = previewing.
Proof.
  apply (authorize_preview demo previewing {[ "title" := JStr "Draft" ]});
    reflexivity.
Defined.

(** The predecessor class does not look at the preview slot: in the same
    state it serves the cached entry. *)
Example AppManagerWidget_has_no_preview :
  let s := set_browser
             (with_localStorage
                (Some {[ "appmanager_widget_site-1_app-1"
                         := Parsed (Some granted) (Some 1000000) ]}))
             previewing in
  outcome (authorize legacy s) = Return granted
  /\ emitted (authorize legacy s) = [GetItem "appmanager_widget_site-1_app-1"].
Proof. split; reflexivity. Qed.

(** ** stop *)

Lemma stop_twice_witness :
  let s := atTime ∅ 1000000 down running in
  let first := stop demo s in
  let second := stop demo (final first) in
  outcome first = Return tt
  /\ outcome second = Return tt
  /\ count isDestroy (emitted first) = 1%nat
  /\ count isDestroy (emitted second) = 1%nat
  /\ count isDestroy (emitted first ++ emitted second) = 2%nat.
Proof.
  apply (stop_twice demo (atTime ∅ 1000000 down running)); reflexivity.
Defined.

(** C4 fails as stated.  The hooks of [demo] never throw; two calls of
    [stop] in succession invoke [onDestroy] twice, once each. *)
Lemma stop_twice_counterexample :
  let s := atTime ∅ 1000000 down running in
  let first := stop demo s in
  let second := stop demo (final first) in
  (forall s', fst (onDestroy (hooks demo) s') = Return tt)
  /\ ~ (outcome first = Return tt
        /\ outcome second = Return tt
        /\ count isDestroy (emitted first ++ emitted second) = 1%nat
        /\ count isDestroy (emitted second) = 0%nat).
Proof.
  cbv zeta. split; [reflexivity|].
  intros (_ & _ & H & _). vm_compute in H. discriminate.
Qed.

(** C5 fails as stated.  On a running instance whose [onDestroy] throws,
    [stop] invokes the hook and returns, and the flag is still set. *)
Lemma stop_by_hook_outcome_counterexample :
  let s := atTime ∅ 1000000 down running in
  isInitialized (this s) = true
  /\ In (Hook OnDestroy) (emitted (stop faulty s))
  /\ outcome (stop faulty s) = Return tt
  /\ ~ isInitialized (this (final (stop faulty s))) = false.
Proof.
  cbv zeta. split; [reflexivity|]. split; [now left|].
  split; [reflexivity|]. vm_compute. discriminate.
Qed.

Lemma stop_by_hook_outcome_witness :
  let s := atTime ∅ 1000000 down running in
  (outcome (stop demo s) = Return tt
   /\ isInitialized (this (final (stop demo s))) = false)
  /\ isInitialized (this (final (stop faulty s))) = true
  /\ outcome (stop faulty s) = Return tt
  /\ reported faulty "Failed to stop widget"
       (ErrorObj "listener already removed") (emitted (stop faulty s)).
Proof.
  cbv zeta. split.
  - pose proof (stop_by_hook_outcome demo (atTime ∅ 1000000 down running))
      as (_ & H & _).
    apply (H (atTime ∅ 1000000 down running)). reflexivity.
  - pose proof (stop_by_hook_outcome faulty (atTime ∅ 1000000 down running))
      as (_ & _ & H).
    destruct (H (ErrorObj "listener already removed")
                (atTime ∅ 1000000 down running) eq_refl) as (H1 & _ & H2).
    split; [exact H1|]. apply H2.
    right. exists (Some "listener already removed"). reflexivity.
Defined.

(** ** Cache key *)

(** C6 fails as stated.  The pairs ("a_b", "c") and ("a", "b_c") are
    distinct pairs of non-empty strings with the same key, in both
    classes. *)
Lemma getCacheKey_of_pair_counterexample :
  ("a_b", "c") <> ("a", "b_c")
  /\ getCacheKey (embedded Koru "a_b" "c")
     = getCacheKey (embedded Koru "a" "b_c")
  /\ getCacheKey (embedded AppManager "a_b" "c")
     = getCacheKey (embedded AppManager "a" "b_c").
Proof. split; [discriminate|]. split; reflexivity. Qed.

Lemma getCacheKey_of_pair_witness :
  getCacheKey (embedded Koru "site-1" "app_1")
  = getCacheKey (embedded Koru "site-1" "app_1")
  /\ getCacheKey (embedded Koru "site-1" "app_1")
     <> getCacheKey (embedded Koru "site-1" "app_2").
Proof.
  split.
  - apply (proj1 (getCacheKey_of_pair (embedded Koru "site-1" "app_1")
                    (embedded Koru "site-1" "app_1") eq_refl)).
    reflexivity.
  - apply (proj2 (getCacheKey_of_pair (embedded Koru "site-1" "app_1")
                    (embedded Koru "site-1" "app_2") eq_refl)).
    + left. split; reflexivity.
    + cbn. discriminate.
Defined.

(** ** start *)

(** C7 fails as stated.  The authorization returns [granted], whose config
    has the title "Hello"; [onInit] reassigns [this.config], and [onRender]
    is invoked with the reassigned config, which is the config of no
    result. *)
Lemma start_gate_counterexample :
  let s := atTime ∅ 1000000 grants created in
  let mine : WidgetConfig := {[ "title" := JStr "Mine" ]} in
  outcome (authorize rewriter (final (waitForDOM s))) = Return granted
  /\ In (Hook (OnRender mine)) (emitted (start rewriter s))
  /\ ~ (exists a,
          outcome (authorize rewriter (final (waitForDOM s))) = Return a
          /\ authorized a = true
          /\ config_of a = mine).
Proof.
  cbv zeta. split; [reflexivity|]. split.
  - vm_compute. auto 10.
  - intros (a & Ha & _ & Hc).
    assert (H : outcome
                  (authorize rewriter
                     (final (waitForDOM (atTime ∅ 1000000 grants created))))
                = Return granted) by reflexivity.
    rewrite H in Ha. injection Ha as <-.
    apply (f_equal (fun c : WidgetConfig => c !! "title")) in Hc.
    vm_compute in Hc. discriminate.
Qed.

Lemma start_gate_witness :
  (let s := atTime ∅ 1000000 denies created in
   outcome (start demo s) = Return tt
   /\ count isHook (emitted (start demo s)) = 0%nat
   /\ isInitialized (this (final (start demo s))) = false
   /\ config (this (final (start demo s))) = ∅)
  /\ (let s := atTime ∅ 1000000 grants created in
      exists a,
        outcome (authorize demo (final (waitForDOM s))) = Return a
        /\ authorized a = true
        /\ (OnRender (config_of granted) = OnInit (config_of a)
            \/ OnRender (config_of granted) = OnRender (config_of a))).
Proof.
  split.
  - apply (proj1 (start_gate demo (atTime ∅ 1000000 denies created)) denied);
      reflexivity.
  - apply (proj2 (proj2 (start_gate demo
                           (atTime ∅ 1000000 grants created)))).
    + intros c s0. reflexivity.
    + vm_compute. auto 10.
Defined.

(** ** reload *)

Lemma reload_unauthorized_witness :
  let s := atTime storeOfDemo 1000500 denies running in
  outcome (reload demo s) = Return tt
  /\ count isHook (emitted (reload demo s)) = 0%nat
  /\ config (this (final (reload demo s))) = config_of granted.
Proof.
  apply (reload_unauthorized demo
           (atTime storeOfDemo 1000500 denies running) denied);
    reflexivity.
Defined.

(** After the reload the two fields disagree: [authData] is the new result,
    with an empty config, and [config] still has the title. *)
Lemma reload_overwrites_authData_witness :
  let s := atTime storeOfDemo 1000500 denies running in
  authData (this (final (reload demo s))) = Some denied
  /\ config (this (final (reload demo s))) = config_of granted
  /\ config_of denied <> config_of granted.
Proof.
  cbv zeta.
  destruct (reload_overwrites_authData demo
              (atTime storeOfDemo 1000500 denies running) denied eq_refl)
    as (_ & _ & _ & H).
  destruct (H eq_refl) as (_ & H1 & H2).
  split; [exact H1|]. split; [exact H2|].
  intros Hc. apply (f_equal (fun c : WidgetConfig => c !! "title")) in Hc.
  vm_compute in Hc. discriminate.
Defined.

(** ** Two runs of the whole flow *)

(** The server fails twice and then grants, on a page where no suspension
    lasts longer than it must: [authorize] returns the result after three
    requests and two pauses, and the result is in the cache with the time
    of its capture, two seconds after the call. *)
Example authorize_third_attempt :
  let answers : nat -> string -> FetchOutcome :=
    fun i url => if (i <? 2)%nat then down i url else grants i url in
  let r := authorize demo (atTime ∅ 1000000 answers created) in
  outcome r = Return granted
  /\ schedule (emitted r)
     = [FetchGet (authUrl demo); SetTimeout 1000;
        FetchGet (authUrl demo); SetTimeout 1000;
        FetchGet (authUrl demo)]
  /\ localStorage (browser (final r))
     = Some {[ "koru_widget_site-1_app-1"
               := Parsed (Some granted) (Some 1002000) ]}.
Proof. repeat split; reflexivity. Qed.

(** A second [authorize] within the hour is served from the cache although
    the server is down by then. *)
Example authorize_second_call :
  let first := authorize demo (atTime ∅ 1000000 grants created) in
  let later :=
    set_browser
      (fun b =>
         {| previewConfig := previewConfig b; origin := origin b;
            document := document b; localStorage := localStorage b;
            quotaExceeded := quotaExceeded b; clock := clock b + 1800000;
            requests := requests b; server := down;
            waits := waits b; lateness := lateness b |})
      (final first) in
  let second := authorize demo later in
  outcome first = Return granted
  /\ outcome second = Return granted
  /\ count isRequest (emitted second) = 0%nat.
Proof. repeat split; reflexivity. Qed.

(** * Further properties *)

(** ** The cache helpers *)

Lemma getFromCache_returns (w : Widget) (s : State) :
  exists r, outcome (getFromCache w s) = Return r.
Proof.
  unfold getFromCache.
  match goal with |- context [try_catch ?m ?h s] => set (body := m) end.
  destruct (outcome (body s)) as [r|e] eqn:Ho.
  - exists r. now rewrite (try_catch_returns _ _ _ _ Ho).
  - exists None. now rewrite (try_catch_throws _ _ _ _ Ho).
Qed.

Lemma saveToCache_returns (w : Widget) (data : AuthResponse) (s : State) :
  outcome (saveToCache w data s) = Return tt.
Proof.
  unfold saveToCache.
  match goal with |- context [try_catch ?m ?h s] => set (body := m) end.
  destruct (outcome (body s)) as [[]|e] eqn:Ho.
  - now rewrite (try_catch_returns _ _ _ _ Ho).
  - rewrite (try_catch_throws _ _ _ _ Ho); cbn [outcome].
    now rewrite log_run.
Qed.

(** X1. The three cache helpers swallow every error of the store: whether
    localStorage is unavailable, over quota, or holds garbage, none of them
    throws. *)
Theorem cache_helpers_never_throw (w : Widget) (data : AuthResponse)
    (s : State) :
  (exists r, outcome (getFromCache w s) = Return r)
  /\ outcome (saveToCache w data s) = Return tt
  /\ outcome (clearCache w s) = Return tt.
Proof.
  split; [apply getFromCache_returns|].
  split; [apply saveToCache_returns|apply clearCache_returns].
Qed.

Lemma saveToCache_run (w : Widget) (data : AuthResponse) (s : State) :
  final (saveToCache w data s)
  = set_browser
      (with_localStorage (stored w data (clock (browser s)) (browser s))) s.
Proof.
  unfold saveToCache, setItem, Date_now, stored, try_catch, bind, get,
    modify, emit, ret, throw; cbn.
  destruct s as [f b]; cbn.
  destruct (localStorage b) as [m|] eqn:Hm; cbn.
  - destruct (quotaExceeded b) eqn:Hq; cbn.
    + rewrite log_run; cbn. unfold set_browser, with_localStorage; cbn.
      destruct b; cbn in *. now subst.
    + reflexivity.
  - rewrite log_run; cbn. unfold set_browser, with_localStorage; cbn.
    destruct b; cbn in *. now subst.
Qed.

Lemma getFromCache_entry (w : Widget) (s : State) (m : gmap string Stored)
    (data : AuthResponse) (t : Z) :
  localStorage (browser s) = Some m ->
  m !! getCacheKey w = Some (Parsed (Some data) (Some t)) ->
  expired w (clock (browser s)) t = false ->
  getFromCache w s
  = {| outcome := Return (Some data); final := s;
       emitted := [GetItem (getCacheKey w)] |}.
Proof.
  intros Hm Hk He.
  unfold getFromCache, getItem, Date_now, try_catch, bind, get, emit, ret,
    throw.
  set (key := getCacheKey w) in *. cbn. rewrite Hm; cbn.
  rewrite Hk; cbn. rewrite He; cbn. reflexivity.
Qed.

Lemma getCacheKey_same (wa wb : Widget) :
  sdk wa = sdk wb -> websiteId wa = websiteId wb -> appId wa = appId wb ->
  getCacheKey wa = getCacheKey wb.
Proof.
  intros H1 H2 H3. unfold getCacheKey, cachePrefix. now rewrite H1, H2, H3.
Qed.

(** X2. What one instance saves, any instance of the same class embedded
    for the same website and app reads back, as long as no more than the
    reader's [cacheDuration] has passed: the payload comes back as saved
    and the read changes nothing. *)
Theorem cache_round_trip (wa wb : Widget) (s : State)
    (m : gmap string Stored) (data : AuthResponse) (elapsed : Z) :
  sdk wa = sdk wb -> websiteId wa = websiteId wb -> appId wa = appId wb ->
  localStorage (browser s) = Some m ->
  quotaExceeded (browser s) = false ->
  elapsed <= 1000 * cacheDuration (options wb) ->
  let later :=
    set_browser (with_clock (clock (browser s) + elapsed))
      (final (saveToCache wa data s)) in
  outcome (getFromCache wb later) = Return (Some data)
  /\ final (getFromCache wb later) = later.
Proof.
  intros Hk Hw Ha Hm Hq Hel later.
  pose proof (getCacheKey_same wa wb Hk Hw Ha) as Hkey.
  assert (Hrun : getFromCache wb later
                 = {| outcome := Return (Some data); final := later;
                      emitted := [GetItem (getCacheKey wb)] |}).
  { apply (getFromCache_entry wb later
             (<[getCacheKey wa := Parsed (Some data)
                                    (Some (clock (browser s)))]> m)
             data (clock (browser s))).
    - subst later. rewrite saveToCache_run. unfold stored.
      now rewrite Hm, Hq.
    - rewrite Hkey. apply lookup_insert_eq.
    - apply expired_false, age_le_iff. subst later. cbn. lia. }
  now rewrite Hrun.
Qed.

(** X3. A save that cannot be done is dropped: when the store is
    unavailable or over quota, [saveToCache] returns normally and the state
    is what it was. *)
Theorem saveToCache_failure (w : Widget) (data : AuthResponse) (s : State) :
  localStorage (browser s) = None \/ quotaExceeded (browser s) = true ->
  outcome (saveToCache w data s) = Return tt
  /\ final (saveToCache w data s) = s.
Proof.
  intros H. split; [apply saveToCache_returns|].
  rewrite saveToCache_run. unfold stored.
  destruct s as [f b]; destruct b; cbn in *.
  destruct H as [->| ->]; [reflexivity|].
  now destruct localStorage0.
Qed.

Lemma clearCache_then_lookup_aux (w : Widget) (s : State) :
  outcome (getFromCache w (final (clearCache w s))) = Return None.
Proof.
  unfold clearCache, removeItem, getFromCache, getItem, Date_now,
    try_catch, bind, get, modify, emit, ret, throw.
  set (key := getCacheKey w). cbn.
  destruct (localStorage (browser s)) as [m|] eqn:Hm; cbn.
  - now rewrite lookup_delete_eq.
  - now rewrite Hm.
Qed.

(** X4. After [clearCache] a lookup finds nothing, whatever the store held
    and even when the store is unavailable; and [clearCache] removes the key
    of the instance only. *)
Theorem clearCache_then_lookup (w : Widget) (s : State) :
  outcome (getFromCache w (final (clearCache w s))) = Return None
  /\ (forall m, localStorage (browser s) = Some m ->
                localStorage (browser (final (clearCache w s)))
                = Some (delete (getCacheKey w) m))
  /\ (forall m m' k,
         localStorage (browser s) = Some m ->
         localStorage (browser (final (clearCache w s))) = Some m' ->
         k <> getCacheKey w -> m' !! k = m !! k).
Proof.
  assert (Hfinal : forall m, localStorage (browser s) = Some m ->
                     localStorage (browser (final (clearCache w s)))
                     = Some (delete (getCacheKey w) m)).
  { intros m Hm.
    unfold clearCache, removeItem, try_catch, bind, get, modify, emit, ret,
      throw; cbn. now rewrite Hm. }
  split; [|split; [exact Hfinal|]].
  - unfold clearCache, removeItem, getFromCache, getItem, Date_now,
      try_catch, bind, get, modify, emit, ret, throw.
    set (key := getCacheKey w). cbn.
    destruct (localStorage (browser s)) as [m|] eqn:Hm; cbn.
    + now rewrite lookup_delete_eq.
    + now rewrite Hm.
  - intros m m' k Hm Hm' Hk. rewrite (Hfinal m Hm) in Hm'.
    injection Hm' as <-. now apply lookup_delete_ne.
Qed.

(** X5. An entry that is not a record of the cache is neither used nor
    cleaned up: when the key is missing, or holds the empty string, or text
    that does not parse, [getFromCache] gives [null] and leaves the store
    exactly as it is. *)
Theorem getFromCache_garbage (w : Widget) (s : State)
    (m : gmap string Stored) :
  localStorage (browser s) = Some m ->
  m !! getCacheKey w = None
  \/ m !! getCacheKey w = Some Blank
  \/ m !! getCacheKey w = Some Unparseable ->
  outcome (getFromCache w s) = Return None
  /\ final (getFromCache w s) = s
  /\ count isCacheWrite (emitted (getFromCache w s)) = 0%nat.
Proof.
  intros Hm Hk.
  unfold getFromCache, getItem, Date_now, try_catch, bind, get, emit, ret,
    throw.
  set (key := getCacheKey w) in *. cbn. rewrite Hm; cbn.
  destruct Hk as [-> | [-> | ->]]; cbn; auto.
Qed.

(** X6. The time to live in milliseconds: an entry is expired exactly when
    more than [1000 * cacheDuration] milliseconds passed since its capture;
    at the limit itself it is still served. *)
Theorem expired_iff (w : Widget) (now t : Z) :
  expired w now t = true <-> 1000 * cacheDuration (options w) < now - t.
Proof.
  split.
  - intros H. destruct (Z.le_gt_cases (now - t)
                          (1000 * cacheDuration (options w))) as [Hle|Hgt];
      [|lia].
    apply age_le_iff, expired_false in Hle. congruence.
  - intros H. destruct (expired w now t) eqn:He; [reflexivity|].
    unfold expired in He. apply negb_false_iff, Qle_bool_iff in He.
    apply age_le_iff in He. lia.
Qed.

(** ** What a run can emit, and what it keeps *)

Section Emits.

Context {A B : Type} (p : Event -> bool).

Lemma emits_ret (a : A) : emits p (ret a).
Proof. intros s. constructor. Qed.

Lemma emits_throw e : emits p (@throw A e).
Proof. intros s. constructor. Qed.

Lemma emits_emit e : p e = true -> emits p (emit e).
Proof. intros H s. cbn. auto. Qed.

Lemma emits_modify f : emits p (modify f).
Proof. intros s. constructor. Qed.

Lemma emits_call h code : p (Hook h) = true -> emits p (call h code).
Proof. intros H s. unfold call. destruct (code s). cbn. auto. Qed.

Lemma emits_bind (m : M A) (k : A -> M B) :
  emits p m -> (forall a, emits p (k a)) -> emits p (bind m k).
Proof.
  intros Hm Hk s. destruct (outcome (m s)) as [a|e] eqn:Ho.
  - rewrite (bind_returns _ _ _ _ Ho); cbn.
    apply Forall_app. split; [apply Hm|apply Hk].
  - rewrite (bind_throws _ _ _ _ Ho); cbn. apply Hm.
Qed.

Lemma emits_try_catch (m : M A) h :
  emits p m -> (forall e, emits p (h e)) -> emits p (try_catch m h).
Proof.
  intros Hm Hh s. destruct (outcome (m s)) as [a|e] eqn:Ho.
  - rewrite (try_catch_returns _ _ _ _ Ho). apply Hm.
  - rewrite (try_catch_throws _ _ _ _ Ho); cbn.
    apply Forall_app. split; [apply Hm|apply Hh].
Qed.

Context {X : Type} (f : State -> X).

Lemma preserves_ret (a : A) : preserves f (ret a).
Proof. intros s. reflexivity. Qed.

Lemma preserves_throw e : preserves f (@throw A e).
Proof. intros s. reflexivity. Qed.

Lemma preserves_emit e : preserves f (emit e).
Proof. intros s. reflexivity. Qed.

Lemma preserves_modify g :
  (forall s, f (g s) = f s) -> preserves f (modify g).
Proof. intros H s. apply H. Qed.

Lemma preserves_bind (m : M A) (k : A -> M B) :
  preserves f m -> (forall a, preserves f (k a)) -> preserves f (bind m k).
Proof.
  intros Hm Hk s. destruct (outcome (m s)) as [a|e] eqn:Ho.
  - rewrite (bind_returns _ _ _ _ Ho); cbn. now rewrite Hk, Hm.
  - rewrite (bind_throws _ _ _ _ Ho); cbn. apply Hm.
Qed.

Lemma preserves_try_catch (m : M A) h :
  preserves f m -> (forall e, preserves f (h e)) ->
  preserves f (try_catch m h).
Proof.
  intros Hm Hh s. destruct (outcome (m s)) as [a|e] eqn:Ho.
  - rewrite (try_catch_returns _ _ _ _ Ho). apply Hm.
  - rewrite (try_catch_throws _ _ _ _ Ho); cbn. now rewrite Hh, Hm.
Qed.

End Emits.

Lemma emits_get (p : Event -> bool) : emits p get.
Proof. intros s. constructor. Qed.

Lemma preserves_get {X} (f : State -> X) : preserves f get.
Proof. intros s. reflexivity. Qed.

Lemma emits_count (p q : Event -> bool) {A} (m : M A) (s : State) :
  (forall e, p e = true -> q e = false) ->
  emits p m -> count q (emitted (m s)) = 0%nat.
Proof.
  intros Hpq Hm. apply count_none.
  eapply Forall_impl; [apply Hm|]. intros e. apply Hpq.
Qed.

Ltac emits_step :=
  first
    [ apply emits_bind; [|intros ?]
    | apply emits_try_catch; [|intros ?]
    | apply emits_ret | apply emits_throw | apply emits_get
    | apply emits_modify
    | apply emits_emit; reflexivity
    | apply emits_call; reflexivity
    | match goal with
      | |- emits _ (match ?x with _ => _ end) => destruct x
      | |- emits _ (if ?x then _ else _) => destruct x
      | |- emits _ (let '(_, _) := ?x in _) => destruct x
      end ].

Ltac preserves_step :=
  first
    [ apply preserves_bind; [|intros ?]
    | apply preserves_try_catch; [|intros ?]
    | apply preserves_ret | apply preserves_throw | apply preserves_get
    | apply preserves_emit
    | apply preserves_modify; reflexivity
    | match goal with
      | |- preserves _ (match ?x with _ => _ end) => destruct x
      | |- preserves _ (if ?x then _ else _) => destruct x
      | |- preserves _ (let '(_, _) := ?x in _) => destruct x
      end ].

(** ** Caching switched off *)

Section CacheOff.

Variable w : Widget.
Hypothesis Hcache : cache (options w) = false.

Lemma cacheOff_log message :
  emits notStorage (log w message) /\ preserves storeOf (log w message).
Proof.
  unfold log. destruct (debug (options w)); split;
    repeat emits_step; repeat preserves_step.
Qed.

Lemma cacheOff_iteration attempt :
  emits notStorage (iteration w attempt)
  /\ preserves storeOf (iteration w attempt).
Proof.
  unfold iteration, attemptOnce, attemptFailed, fetch, json, sleep.
  rewrite Hcache. split.
  - repeat first [apply cacheOff_log | emits_step].
  - repeat first [apply cacheOff_log | preserves_step].
Qed.

Lemma cacheOff_retryLoop attempts lastError :
  emits notStorage (retryLoop w attempts lastError)
  /\ preserves storeOf (retryLoop w attempts lastError).
Proof.
  revert lastError.
  induction attempts as [|attempt rest IH]; intros lastError;
    cbn [retryLoop].
  - split; [apply emits_throw|apply preserves_throw].
  - split.
    + apply emits_bind; [apply cacheOff_iteration|].
      intros [data|e]; [apply emits_ret|apply IH].
    + apply preserves_bind; [apply cacheOff_iteration|].
      intros [data|e]; [apply preserves_ret|apply IH].
Qed.

Lemma cacheOff_authorize :
  emits notStorage (authorize w) /\ preserves storeOf (authorize w).
Proof.
  unfold authorize, cacheLookup, networkStage. rewrite Hcache. split.
  - repeat first [apply cacheOff_log | apply cacheOff_retryLoop | emits_step].
  - repeat first [apply cacheOff_log | apply cacheOff_retryLoop
                 | preserves_step].
Qed.

End CacheOff.

(** X7. With [cache: false], [authorize] stays away from localStorage: it
    neither reads nor writes nor removes an item, whatever the server
    answers, and the store is left as it was. *)
Theorem authorize_without_cache (w : Widget) (s : State) :
  cache (options w) = false ->
  count isCacheRead (emitted (authorize w s)) = 0%nat
  /\ count isCacheWrite (emitted (authorize w s)) = 0%nat
  /\ localStorage (browser (final (authorize w s)))
     = localStorage (browser s).
Proof.
  intros Hcache. destruct (cacheOff_authorize w Hcache) as (He & Hp).
  assert (Hs : forall e, negb (isStorage e) = true ->
                 isCacheRead e = false /\ isCacheWrite e = false).
  { intros e H. apply negb_true_iff in H. now apply orb_false_elim in H. }
  split; [|split].
  - eapply emits_count; [|exact He]. intros e H. now apply Hs in H.
  - eapply emits_count; [|exact He]. intros e H. now apply Hs in H.
  - apply Hp.
Qed.

(** ** Debug switched off *)

Section DebugOff.

Variable w : Widget.
Hypothesis Hdebug : debug (options w) = false.

Lemma debugOff_log message : emits notConsoleLog (log w message).
Proof. unfold log. rewrite Hdebug. apply emits_ret. Qed.

Ltac silent_auto := repeat first [apply debugOff_log | emits_step].

Lemma debugOff_handleError message error :
  emits notConsoleLog (handleError w message error).
Proof. unfold handleError, track, post. silent_auto. Qed.

Lemma debugOff_iteration attempt : emits notConsoleLog (iteration w attempt).
Proof.
  unfold iteration, attemptOnce, attemptFailed, fetch, json, sleep,
    saveToCache, setItem, Date_now.
  silent_auto.
Qed.

Lemma debugOff_retryLoop attempts lastError :
  emits notConsoleLog (retryLoop w attempts lastError).
Proof.
  revert lastError.
  induction attempts as [|attempt rest IH]; intros lastError;
    cbn [retryLoop].
  - apply emits_throw.
  - apply emits_bind; [apply debugOff_iteration|].
    intros [data|e]; [apply emits_ret|apply IH].
Qed.

Lemma debugOff_authorize : emits notConsoleLog (authorize w).
Proof.
  unfold authorize, cacheLookup, networkStage, getFromCache, clearCache,
    getItem, removeItem, Date_now.
  repeat first [apply debugOff_retryLoop | apply debugOff_log | emits_step].
Qed.

Lemma debugOff_start : emits notConsoleLog (start w).
Proof.
  unfold start, startBody, waitForDOM, readAuthData, track, post.
  repeat first [apply debugOff_authorize | apply debugOff_handleError
               | apply debugOff_log | emits_step].
Qed.

Lemma debugOff_stop : emits notConsoleLog (stop w).
Proof.
  unfold stop, stopBody.
  repeat first [apply debugOff_handleError | apply debugOff_log | emits_step].
Qed.

Lemma debugOff_reload : emits notConsoleLog (reload w).
Proof.
  unfold reload, reloadBody, readAuthData, clearCache, removeItem.
  repeat first [apply debugOff_authorize | apply debugOff_handleError
               | apply debugOff_log | emits_step].
Qed.

End DebugOff.

(** X8. With [debug: false] the runtime never writes to [console.log]:
    no run of [start], [stop] or [reload] emits a log line, whatever the
    server, the store and the hooks do; errors still go to
    [console.error]. *)
Theorem debug_off_is_silent (w : Widget) (s : State) :
  debug (options w) = false ->
  count isConsoleLog (emitted (start w s)) = 0%nat
  /\ count isConsoleLog (emitted (stop w s)) = 0%nat
  /\ count isConsoleLog (emitted (reload w s)) = 0%nat.
Proof.
  intros Hdebug.
  assert (Hs : forall e, negb (isConsoleLog e) = true ->
                 isConsoleLog e = false)
    by (intros e; apply negb_true_iff).
  split; [|split]; (eapply emits_count; [exact Hs|]).
  - now apply debugOff_start.
  - now apply debugOff_stop.
  - now apply debugOff_reload.
Qed.

(** ** The retry loop, attempt by attempt *)

Section Attempts.

Variable w : Widget.

(** One iteration, whatever the server answers. *)
Lemma iteration_run attempt s :
  let o := server (browser s) (requests (browser s)) (authUrl w) in
  let r := iteration w attempt s in
  requests (browser (final r)) = S (requests (browser s))
  /\ quotaExceeded (browser (final r)) = quotaExceeded (browser s)
  /\ count isRequest (emitted r) = 1%nat
  /\ match attemptError o with
     | Some e =>
         outcome r = Return (inr e)
         /\ schedule (emitted r)
            = FetchGet (authUrl w)
              :: (if (attempt <? retryAttempts (options w))%Z
                  then [SetTimeout (retryDelay (options w))] else [])
         /\ localStorage (browser (final r)) = localStorage (browser s)
     | None =>
         exists status data,
           o = Response status (Json data)
           /\ ok status = true
           /\ outcome r = Return (inl data)
           /\ schedule (emitted r) = [FetchGet (authUrl w)]
           /\ localStorage (browser (final r))
              = if cache (options w)
                then stored w data (clock (browser (final r))) (browser s)
                else localStorage (browser s)
     end.
Proof.
  cbv zeta.
  unfold iteration, attemptOnce, attemptFailed, saveToCache, fetch, json,
    log, sleep, suspend, setItem, Date_now, stored, attemptError,
    try_catch, bind, get, modify, emit, ret, throw.
  set (url := authUrl w). set (key := getCacheKey w).
  set (d := timerDelay (retryDelay (options w))) in *. cbn.
  destruct (debug (options w)); cbn;
    destruct (server (browser s) (requests (browser s)) url)
      as [message|status [message|data]]; cbn;
    try (destruct (ok status) eqn:Hok; cbn);
    try (destruct (attempt <? retryAttempts (options w))%Z; cbn);
    try (destruct (cache (options w)); cbn);
    try (destruct (localStorage (browser s)) as [m|] eqn:Hm; cbn);
    try (destruct (quotaExceeded (browser s)) eqn:Hq; cbn);
    repeat match goal with
           | |- _ /\ _ => split
           | |- exists _, _ => eexists
           end;
    first [reflexivity | lia | assumption | congruence].
Qed.

End Attempts.

Section Outcomes.

Variable w : Widget.

#[local] Abbreviation N := (retryAttempts (options w)).

Lemma cacheLookup_keeps_quota :
  preserves (fun s => quotaExceeded (browser s)) (cacheLookup w).
Proof.
  unfold cacheLookup, getFromCache, clearCache, getItem, removeItem,
    Date_now.
  repeat preserves_step.
Qed.

Lemma cacheLookup_keeps_store s m :
  localStorage (browser s) = Some m ->
  exists m', localStorage (browser (final (cacheLookup w s))) = Some m'.
Proof.
  intros Hm.
  unfold cacheLookup, getFromCache, clearCache, getItem, removeItem,
    Date_now, try_catch, bind, get, modify, emit, ret, throw.
  set (key := getCacheKey w).
  destruct (cache (options w)); cbn; [|eauto].
  rewrite Hm; cbn.
  destruct (m !! key) as [[| |data [t|]]|]; cbn; eauto.
  destruct (expired w (clock (browser s)) t); cbn; eauto.
  rewrite Hm; cbn. eauto.
Qed.

(** The loop when the attempt of index [k] is the first to succeed. *)
Lemma retryLoop_first_success (k : nat) :
  forall (a : Z) (n : nat) (lastError : option Thrown) (s : State)
         (status : Z) (data : AuthResponse),
    a + Z.of_nat n = N + 1 ->
    (k < n)%nat ->
    (forall i, (i < k)%nat ->
       attemptError (server (browser s) (requests (browser s) + i)%nat
                       (authUrl w)) <> None) ->
    server (browser s) (requests (browser s) + k)%nat (authUrl w)
    = Response status (Json data) ->
    ok status = true ->
    let r := retryLoop w (seqZ a (Z.of_nat n)) lastError s in
    outcome r = Return data
    /\ schedule (emitted r)
       = paced (authUrl w) (retryDelay (options w)) (S k)
    /\ localStorage (browser (final r))
       = if cache (options w)
         then stored w data (clock (browser (final r))) (browser s)
         else localStorage (browser s).
Proof.
  induction k as [|k IH]; intros a n lastError s status data Ha Hk Hfail
    Hserver Hok; cbv zeta.
  - rewrite seqZ_cons by lia. rewrite retryLoop_cons.
    destruct (iteration_run w a s) as (_ & _ & _ & Hrun).
    rewrite Nat.add_0_r in Hserver. rewrite Hserver in Hrun.
    cbn [attemptError] in Hrun. rewrite Hok in Hrun.
    destruct Hrun as (st & d & [= <- <-] & _ & Ho & Hsch & Hstore).
    rewrite (bind_returns _ _ _ _ Ho). cbv beta iota.
    cbn [outcome final emitted ret]. rewrite app_nil_r, Hsch, Hstore.
    repeat split.
  - rewrite seqZ_cons by lia.
    replace (Z.pred (Z.of_nat n)) with (Z.of_nat (Nat.pred n)) by lia.
    rewrite retryLoop_cons.
    destruct (iteration_run w a s) as (Hreq & Hquota & _ & Hrun).
    destruct (quiet_iteration w a s) as (_ & Hsame & _).
    destruct (attemptError _) as [e|] eqn:He.
    2: { exfalso. apply (Hfail 0%nat); [lia|]. now rewrite Nat.add_0_r. }
    destruct Hrun as (Ho & Hsch & Hstore).
    rewrite (bind_returns _ _ _ _ Ho). cbv beta iota.
    cbn [outcome final emitted].
    set (s1 := final (iteration w a s)) in *.
    destruct (IH (Z.succ a) (Nat.pred n) (Some e) s1 status data)
      as (Ho' & Hsch' & Hstore').
    { lia. }
    { lia. }
    { intros i Hi. rewrite Hsame, Hreq.
      replace (S (requests (browser s)) + i)%nat
        with (requests (browser s) + S i)%nat by lia.
      apply Hfail. lia. }
    { rewrite Hsame, Hreq.
      now replace (S (requests (browser s)) + k)%nat
        with (requests (browser s) + S k)%nat by lia. }
    { exact Hok. }
    rewrite Ho', schedule_app, Hsch, Hsch', Hstore'.
    destruct (Z.ltb_spec a (retryAttempts (options w))); [|lia].
    split; [reflexivity|]. split; [reflexivity|].
    unfold stored. now rewrite Hstore, Hquota.
Qed.

(** The loop when every attempt ends with an error, of whatever kind. *)
Lemma retryLoop_all_error (n : nat) :
  forall (a : Z) (lastError : option Thrown) (s : State),
    a + Z.of_nat n = N + 1 ->
    (forall i, attemptError (server (browser s) i (authUrl w)) <> None) ->
    let r := retryLoop w (seqZ a (Z.of_nat n)) lastError s in
    (exists e,
        outcome r = Throw e
        /\ match n with
           | O => e = default (ErrorObj "Authorization failed") lastError
           | S n' =>
               attemptError
                 (server (browser s) (requests (browser s) + n')%nat
                    (authUrl w)) = Some e
           end)
    /\ count isRequest (emitted r) = n
    /\ localStorage (browser (final r)) = localStorage (browser s).
Proof.
  induction n as [|n IH]; intros a lastError s Ha Hfail; cbv zeta.
  - rewrite seqZ_nil by reflexivity. cbn. eauto.
  - rewrite seqZ_cons by lia.
    replace (Z.pred (Z.of_nat (S n))) with (Z.of_nat n) by lia.
    rewrite retryLoop_cons.
    destruct (iteration_run w a s) as (Hreq & _ & Hcount & Hrun).
    destruct (quiet_iteration w a s) as (_ & Hsame & _).
    destruct (attemptError _) as [e|] eqn:He; [|now apply Hfail in He].
    destruct Hrun as (Ho & _ & Hstore).
    rewrite (bind_returns _ _ _ _ Ho). cbv beta iota.
    cbn [outcome final emitted].
    set (s1 := final (iteration w a s)) in *.
    destruct (IH (Z.succ a) (Some e) s1) as ((e' & Ho' & He') & Hc' & Hs').
    { lia. }
    { intros i. rewrite Hsame. apply Hfail. }
    rewrite count_app, Hcount, Hc', Hs', Hstore.
    split; [|auto]. exists e'. split; [exact Ho'|].
    destruct n as [|n'].
    + cbn [default from_option id] in He'. subst e'.
      now rewrite Nat.add_0_r.
    + rewrite Hsame, Hreq in He'.
      now replace (requests (browser s) + S n')%nat
        with (S (requests (browser s)) + n')%nat by lia.
Qed.

(** The loop under any server: at most one request per attempt, and a
    timer after an attempt only when another one follows. *)
Lemma retryLoop_budget (n : nat) :
  forall (a : Z) (lastError : option Thrown) (s : State),
    a + Z.of_nat n = N + 1 ->
    let r := retryLoop w (seqZ a (Z.of_nat n)) lastError s in
    (count isRequest (emitted r) <= n)%nat
    /\ (count isTimer (emitted r) <= Nat.pred n)%nat.
Proof.
  induction n as [|n IH]; intros a lastError s Ha; cbv zeta.
  - rewrite seqZ_nil by reflexivity. cbn. lia.
  - rewrite seqZ_cons by lia.
    replace (Z.pred (Z.of_nat (S n))) with (Z.of_nat n) by lia.
    rewrite retryLoop_cons.
    destruct (iteration_run w a s) as (_ & _ & Hcount & Hrun).
    assert (Htimer : (count isTimer (emitted (iteration w a s))
                      <= if (a <? retryAttempts (options w))%Z
                         then 1 else 0)%nat).
    { rewrite <- count_timer_schedule.
      destruct (attemptError _) as [e|].
      - destruct Hrun as (_ & -> & _).
        destruct (a <? retryAttempts (options w))%Z; cbn; lia.
      - destruct Hrun as (st & d & _ & _ & _ & -> & _).
        destruct (a <? retryAttempts (options w))%Z; cbn; lia. }
    destruct (attemptError _) as [e|].
    + destruct Hrun as (Ho & _).
      rewrite (bind_returns _ _ _ _ Ho). cbv beta iota.
      cbn [outcome final emitted].
      set (s1 := final (iteration w a s)) in *.
      destruct (IH (Z.succ a) (Some e) s1) as (Hc' & Ht'); [lia|].
      rewrite !count_app, Hcount.
      destruct (Z.ltb_spec a (retryAttempts (options w)));
        destruct n as [|n']; cbn [Nat.pred] in *; lia.
    + destruct Hrun as (st & d & _ & _ & Ho & _).
      rewrite (bind_returns _ _ _ _ Ho). cbv beta iota.
      cbn [outcome final emitted ret]. rewrite app_nil_r, Hcount.
      destruct (Z.ltb_spec a (retryAttempts (options w))).
      * destruct n as [|n']; [lia|]. cbn [Nat.pred]. lia.
      * lia.
Qed.

End Outcomes.

Section Network.

Variable w : Widget.

Lemma cacheLookup_returns s :
  exists r, outcome (cacheLookup w s) = Return r.
Proof.
  unfold cacheLookup. destruct (cache (options w)).
  - apply getFromCache_returns.
  - now exists None.
Qed.

(** [authorize] once the preview and the cache gave nothing. *)
Lemma authorize_network s :
  previewConfig (browser s) = None ->
  outcome (cacheLookup w s) = Return None ->
  let r := networkStage w (final (cacheLookup w s)) in
  authorize w s
  = {| outcome := outcome r; final := final r;
       emitted := emitted (cacheLookup w s) ++ emitted r |}.
Proof.
  intros Hp Hc. cbv zeta. unfold authorize.
  rewrite (bind_returns get _ s s eq_refl).
  cbn [outcome final emitted get].
  replace (previewOf w (browser s)) with (@None WidgetConfig)
    by (unfold previewOf; now destruct (sdk w)).
  rewrite (bind_returns _ _ _ _ Hc). reflexivity.
Qed.

Lemma networkStage_budget s :
  let r := networkStage w s in
  (count isRequest (emitted r) <= Z.to_nat (retryAttempts (options w)))%nat
  /\ (count isTimer (emitted r)
      <= Nat.pred (Z.to_nat (retryAttempts (options w))))%nat.
Proof.
  cbv zeta. unfold networkStage.
  destruct (Z.le_gt_cases (retryAttempts (options w)) 0) as [Hle|Hgt].
  - rewrite seqZ_nil by exact Hle. cbn [retryLoop].
    replace (Z.to_nat (retryAttempts (options w))) with 0%nat by lia.
    cbn. lia.
  - replace (seqZ 1 (retryAttempts (options w)))
      with (seqZ 1 (Z.of_nat (Z.to_nat (retryAttempts (options w)))))
      by (f_equal; lia).
    apply retryLoop_budget. lia.
Qed.

End Network.

(** The first success, for use below. *)
Lemma authorize_first_success (w : Widget) (s : State) (k : nat)
    (status : Z) (data : AuthResponse) :
  Z.of_nat k < retryAttempts (options w) ->
  previewConfig (browser s) = None ->
  outcome (cacheLookup w s) = Return None ->
  (forall i, (i < k)%nat ->
     attemptError (server (browser s) (requests (browser s) + i)%nat
                     (authUrl w)) <> None) ->
  server (browser s) (requests (browser s) + k)%nat (authUrl w)
  = Response status (Json data) ->
  ok status = true ->
  let r := authorize w s in
  outcome r = Return data
  /\ count isRequest (emitted r) = S k
  /\ schedule (emitted r) = paced (authUrl w) (retryDelay (options w)) (S k)
  /\ (cache (options w) = true ->
      quotaExceeded (browser s) = false ->
      forall m, localStorage (browser s) = Some m ->
        exists m',
          localStorage (browser (final r)) = Some m'
          /\ m' !! getCacheKey w
             = Some (Parsed (Some data) (Some (clock (browser (final r)))))).
Proof.
  intros Hk Hp Hc Hfail Hserver Hok r. subst r.
  rewrite (authorize_network w s Hp Hc). cbv zeta.
  cbn [outcome final emitted].
  set (s0 := final (cacheLookup w s)).
  destruct (cacheLookup_offline w s) as (Hoff & Hreq).
  destruct (quiet_cacheLookup w s) as (_ & Hsame & _).
  pose proof (cacheLookup_keeps_quota w s) as Hquota0.
  cbv beta in Hquota0. fold s0 in Hreq, Hsame, Hquota0.
  unfold networkStage.
  replace (seqZ 1 (retryAttempts (options w)))
    with (seqZ 1 (Z.of_nat (Z.to_nat (retryAttempts (options w)))))
    by (f_equal; lia).
  destruct (retryLoop_first_success w k 1
              (Z.to_nat (retryAttempts (options w))) None s0 status data)
    as (Ho & Hsch & Hstore).
  { lia. }
  { lia. }
  { intros i Hi. rewrite Hsame, Hreq. now apply Hfail. }
  { now rewrite Hsame, Hreq. }
  { exact Hok. }
  assert (Hs : schedule (emitted (cacheLookup w s)
                         ++ emitted (retryLoop w
                              (seqZ 1 (Z.of_nat
                                 (Z.to_nat (retryAttempts (options w)))))
                              None s0))
               = paced (authUrl w) (retryDelay (options w)) (S k))
    by now rewrite schedule_app, Hoff, Hsch.
  split; [exact Ho|]. split.
  { now rewrite <- count_schedule, Hs, count_paced. }
  split; [exact Hs|].
  intros Hcache Hquota m Hm.
  destruct (cacheLookup_keeps_store w s m Hm) as (m0 & Hm0). fold s0 in Hm0.
  rewrite Hstore, Hcache. unfold stored.
  rewrite Hm0, Hquota0, Hquota.
  eexists. split; [reflexivity|]. apply lookup_insert_eq.
Qed.

(** X9. The attempts before the first success.  With no preview override
    and nothing from the cache, if the first [k] requests end with an error
    (rejected, status outside 200..299, or a body that is not JSON), the
    next one is a 2xx response with a JSON body, and [k < retryAttempts],
    then [authorize] returns that body after exactly [k + 1] requests, with
    a timer of [retryDelay] set between consecutive ones and none after the
    last.  With caching on and a writable store the body is in the store
    under the key of the instance, stamped with the time of its arrival. *)
Theorem authorize_succeeds_after (w : Widget) (s : State) (k : nat)
    (status : Z) (data : AuthResponse) :
  Z.of_nat k < retryAttempts (options w) ->
  previewConfig (browser s) = None ->
  outcome (cacheLookup w s) = Return None ->
  (forall i, (i < k)%nat ->
     attemptError (server (browser s) (requests (browser s) + i)%nat
                     (authUrl w)) <> None) ->
  server (browser s) (requests (browser s) + k)%nat (authUrl w)
  = Response status (Json data) ->
  ok status = true ->
  let r := authorize w s in
  outcome r = Return data
  /\ count isRequest (emitted r) = S k
  /\ schedule (emitted r) = paced (authUrl w) (retryDelay (options w)) (S k)
  /\ (cache (options w) = true ->
      quotaExceeded (browser s) = false ->
      forall m, localStorage (browser s) = Some m ->
        exists m',
          localStorage (browser (final r)) = Some m'
          /\ m' !! getCacheKey w
             = Some (Parsed (Some data) (Some (clock (browser (final r)))))).
Proof. exact (authorize_first_success w s k status data). Qed.

(** X10. Any kind of failure uses up an attempt, a body that is not JSON
    like the others.  With [retryAttempts = N >= 1], no preview override
    and nothing from the cache, if every request ends with an error then
    [authorize] issues exactly [N] requests and throws the error of the
    last one, and the failed authorization leaves nothing in the store: it
    is as the cache lookup left it. *)
Theorem authorize_exhausts_on_any_error (w : Widget) (s : State) (N : nat) :
  retryAttempts (options w) = Z.of_nat N ->
  (1 <= N)%nat ->
  previewConfig (browser s) = None ->
  outcome (cacheLookup w s) = Return None ->
  (forall i, attemptError (server (browser s) i (authUrl w)) <> None) ->
  let r := authorize w s in
  (exists e,
      outcome r = Throw e
      /\ attemptError
           (server (browser s) (requests (browser s) + (N - 1))%nat
              (authUrl w)) = Some e)
  /\ count isRequest (emitted r) = N
  /\ localStorage (browser (final r))
     = localStorage (browser (final (cacheLookup w s))).
Proof.
  intros HN Hpos Hp Hc Hfail r. subst r.
  rewrite (authorize_network w s Hp Hc). cbv zeta.
  cbn [outcome final emitted].
  set (s0 := final (cacheLookup w s)).
  destruct (cacheLookup_offline w s) as (Hoff & Hreq).
  destruct (quiet_cacheLookup w s) as (_ & Hsame & _).
  fold s0 in Hreq, Hsame.
  unfold networkStage. rewrite HN.
  destruct (retryLoop_all_error w N 1 None s0)
    as ((e & Ho & He) & Hcount & Hstore).
  { lia. }
  { intros i. rewrite Hsame. apply Hfail. }
  split; [|split].
  - exists e. split; [exact Ho|].
    destruct N as [|N']; [lia|].
    rewrite Hsame, Hreq in He.
    now replace (S N' - 1)%nat with N' by lia.
  - rewrite count_app, Hcount, <- count_schedule, Hoff. reflexivity.
  - exact Hstore.
Qed.

(** X11. The retry budget, whatever the server does.  No run of
    [authorize] issues more than [retryAttempts] requests, and none sets
    more than [retryAttempts - 1] timers: there is no timer before the
    first attempt and none after the last. *)
Theorem authorize_budget (w : Widget) (s : State) :
  let r := authorize w s in
  (count isRequest (emitted r) <= Z.to_nat (retryAttempts (options w)))%nat
  /\ (count isTimer (emitted r)
      <= Nat.pred (Z.to_nat (retryAttempts (options w))))%nat.
Proof.
  cbv zeta.
  unfold authorize. rewrite (bind_returns get _ s s eq_refl).
  cbn [outcome final emitted get].
  destruct (previewOf w (browser s)) as [preview|].
  { rewrite (bind_returns _ _ s tt) by now rewrite log_run.
    rewrite !log_run. cbn [outcome final emitted ret].
    destruct (debug (options w)); cbn; lia. }
  destruct (cacheLookup_returns w s) as (cached & Hc).
  destruct (cacheLookup_offline w s) as (Hoff & _).
  rewrite (bind_returns _ _ _ _ Hc). cbn [outcome final emitted].
  destruct cached as [data|].
  { rewrite (bind_returns _ _ _ tt) by now rewrite log_run.
    rewrite !log_run. cbn [outcome final emitted ret].
    rewrite app_nil_l, app_nil_r, !count_app, <- count_schedule,
      <- count_timer_schedule, Hoff.
    destruct (debug (options w)); cbn; lia. }
  destruct (networkStage_budget w (final (cacheLookup w s)))
    as (Hcount & Htimer).
  rewrite app_nil_l, !count_app,
    <- (count_schedule (emitted (cacheLookup w s))),
    <- (count_timer_schedule (emitted (cacheLookup w s))), Hoff.
  cbn. auto.
Qed.

(** ** start and reload when the result is authorized *)

Lemma hookCalls_app l1 l2 : hookCalls (l1 ++ l2) = hookCalls l1 ++ hookCalls l2.
Proof. apply List.filter_app. Qed.

Lemma hookCalls_none l :
  Forall (fun e => isHook e = false) l -> hookCalls l = [].
Proof.
  unfold hookCalls. induction 1 as [|e l He _ IH]; [reflexivity|].
  cbn. now rewrite He.
Qed.

Section Authorized.

Variable w : Widget.

(** The end of a successful [start]: the log line and the telemetry. *)
Lemma started_run s :
  let r := (log w "Widget started successfully";;
            if analytics (options w)
            then track w "widget_loaded"
                   {[ "widget" := widgetName w;
                      "version" := widgetVersion w ]}
            else ret tt) s in
  outcome r = Return tt
  /\ this (final r) = this s
  /\ hookCalls (emitted r) = []
  /\ (analytics (options w) = true ->
      exists body,
        In (FetchPost (koruUrl w +:+ analyticsPath w) body) (emitted r)
        /\ event_type body = "widget_loaded"
        /\ event_data body !! "widget" = Some (widgetName w)
        /\ event_data body !! "version" = Some (widgetVersion w)).
Proof.
  cbv zeta. unfold bind. rewrite log_run. unfold track, post, bind, get,
    modify, emit, ret.
  destruct (analytics (options w)), (debug (options w)); cbn;
    (split; [reflexivity|split; [reflexivity|split; [reflexivity|]]]);
    intros H; try discriminate;
    (eexists; split; [cbn; eauto|]; cbn;
     split; [reflexivity|]; split;
     apply lookup_union_Some_l;
     [apply lookup_insert_eq
     |rewrite lookup_insert_ne by discriminate; apply lookup_singleton_eq]).
Qed.

End Authorized.

(** X12. A successful [start].  When the authorization returns an
    authorized result and both hooks return, [start] has called [onInit]
    and then [onRender] and nothing else, the initialized flag is set on
    top of what the hooks left, and with analytics on a [widget_loaded]
    event carrying the name and the version of the widget was sent. *)
Theorem start_success (w : Widget) (s : State) (a : AuthResponse)
    (s3 s4 : State) :
  outcome (waitForDOM s) = Return tt ->
  outcome (authorize w (final (waitForDOM s))) = Return a ->
  authorized a = true ->
  onInit (hooks w) (config_of a)
    (authorizedState a (final (authorize w (final (waitForDOM s)))))
  = (Return tt, s3) ->
  onRender (hooks w) (config (this s3)) s3 = (Return tt, s4) ->
  let r := start w s in
  outcome r = Return tt
  /\ hookCalls (emitted r)
     = [Hook (OnInit (config_of a)); Hook (OnRender (config (this s3)))]
  /\ this (final r) = with_isInitialized true (this s4)
  /\ (analytics (options w) = true ->
      exists body,
        In (FetchPost (koruUrl w +:+ analyticsPath w) body) (emitted r)
        /\ event_type body = "widget_loaded"
        /\ event_data body !! "widget" = Some (widgetName w)
        /\ event_data body !! "version" = Some (widgetVersion w)).
Proof.
  intros H1 H2 Ha Hinit Hrender r. subst r.
  pose proof (startBody_authorized w s a H1 H2 Ha) as Hrun.
  cbv zeta in Hrun. rewrite Hinit, Hrender in Hrun.
  destruct (started_run w (set_this (with_isInitialized true) s4))
    as (Ho & Hthis & Hcalls & Hpost).
  cbv zeta in Ho, Hthis, Hcalls, Hpost.
  assert (Hbody : outcome (startBody w s) = Return tt) by now rewrite Hrun.
  unfold start. rewrite (try_catch_returns _ _ _ _ Hbody), Hrun.
  cbn [outcome final emitted].
  split; [exact Ho|]. split; [|split; [exact Hthis|]].
  - rewrite hookCalls_app, (hookCalls_none _ (startBody_quiet_prefix w s)).
    rewrite hookCalls_app, Hcalls, app_nil_r. reflexivity.
  - intros Hon. destruct (Hpost Hon) as (body & Hin & Hb).
    exists body. split; [|exact Hb].
    apply in_or_app. right. apply in_or_app. now right.
Qed.

(** X13. A [start] whose hook throws.  If [onInit] throws, [onRender] is
    never called; if [onRender] throws, both were called.  Either way the
    initialized flag is not set (the fields are what the throwing hook
    left) and the error is written to the error channel; when the error
    can be reported in full (analytics is off, or the telemetry field can
    be computed from the thrown value), [start] returns and has sent the
    report. *)
Theorem start_hook_failure (w : Widget) (s : State) (a : AuthResponse) :
  outcome (waitForDOM s) = Return tt ->
  outcome (authorize w (final (waitForDOM s))) = Return a ->
  authorized a = true ->
  let s2 := authorizedState a (final (authorize w (final (waitForDOM s)))) in
  let r := start w s in
  (forall e s3,
      onInit (hooks w) (config_of a) s2 = (Throw e, s3) ->
      hookCalls (emitted r) = [Hook (OnInit (config_of a))]
      /\ this (final r) = this s3
      /\ handled w "Failed to start widget" e r)
  /\ (forall e s3 s4,
        onInit (hooks w) (config_of a) s2 = (Return tt, s3) ->
        onRender (hooks w) (config (this s3)) s3 = (Throw e, s4) ->
        hookCalls (emitted r)
        = [Hook (OnInit (config_of a));
           Hook (OnRender (config (this s3)))]
        /\ this (final r) = this s4
        /\ handled w "Failed to start widget" e r).
Proof.
  intros H1 H2 Ha s2 r. subst r.
  pose proof (startBody_authorized w s a H1 H2 Ha) as Hrun.
  cbv zeta in Hrun. fold s2 in Hrun.
  assert (Hcatch : forall e sx l,
             startBody w s
             = {| outcome := Throw e; final := sx;
                  emitted := (emitted (waitForDOM s)
                              ++ emitted (authorize w (final (waitForDOM s))))
                             ++ l |} ->
             hookCalls (emitted (start w s)) = hookCalls l
             /\ this (final (start w s)) = this sx
             /\ handled w "Failed to start widget" e (start w s)).
  { intros e sx l Hb.
    assert (Hthrows : outcome (startBody w s) = Throw e) by now rewrite Hb.
    split; [|split].
    3: { exact (boundary_handled w (startBody w) "Failed to start widget"
                  s e Hthrows). }
    all: unfold start; rewrite (try_catch_throws _ _ _ _ Hthrows), Hb;
      cbn [outcome final emitted];
      destruct (quiet_handleError w "Failed to start widget" e sx)
        as (Ht & _ & Hq).
    - rewrite hookCalls_app, (hookCalls_none _ Hq), app_nil_r.
      now rewrite hookCalls_app,
        (hookCalls_none _ (startBody_quiet_prefix w s)).
    - exact Ht. }
  split.
  - intros e s3 Hinit. rewrite Hinit in Hrun.
    exact (Hcatch _ _ _ Hrun).
  - intros e s3 s4 Hinit Hrender. rewrite Hinit, Hrender in Hrun.
    exact (Hcatch _ _ _ Hrun).
Qed.

Section ReloadTail.

Variable w : Widget.

Lemma reloadTail_update (update : WidgetConfig -> HostCode) c s :
  onConfigUpdate (hooks w) = Some update ->
  reloadTail w c s
  = match update c s with
    | (Return _, s2) =>
        {| outcome := Return tt; final := set_this (with_config c) s2;
           emitted := Hook (OnConfigUpdate c)
                      :: emitted (log w "Widget reloaded" s2) |}
    | (Throw e, s2) =>
        {| outcome := Throw e; final := s2;
           emitted := [Hook (OnConfigUpdate c)] |}
    end.
Proof.
  intros H. unfold reloadTail, bind, call, modify. rewrite H.
  destruct (update c s) as [[[]|e] s2]; [|reflexivity].
  rewrite !log_run. reflexivity.
Qed.

Lemma reloadTail_rerender c s :
  onConfigUpdate (hooks w) = None ->
  reloadTail w c s
  = match onDestroy (hooks w) s with
    | (Throw e, s2) =>
        {| outcome := Throw e; final := s2; emitted := [Hook OnDestroy] |}
    | (Return _, s2) =>
        match onRender (hooks w) c s2 with
        | (Throw e, s3) =>
            {| outcome := Throw e; final := s3;
               emitted := [Hook OnDestroy; Hook (OnRender c)] |}
        | (Return _, s3) =>
            {| outcome := Return tt; final := set_this (with_config c) s3;
               emitted := Hook OnDestroy :: Hook (OnRender c)
                          :: emitted (log w "Widget reloaded" s3) |}
        end
    end.
Proof.
  intros H. unfold reloadTail, bind, call, modify. rewrite H.
  destruct (onDestroy (hooks w) s) as [[[]|e] s2]; [|reflexivity].
  destruct (onRender (hooks w) c s2) as [[[]|e] s3]; [|reflexivity].
  rewrite !log_run. reflexivity.
Qed.

(** [reload] in terms of the rest of its [try] block. *)
Lemma reload_authorized_run s a :
  outcome (authorize w (final (clearCache w s))) = Return a ->
  authorized a = true ->
  let s1 := set_this (with_authData (Some a))
              (final (authorize w (final (clearCache w s)))) in
  let t := reloadTail w (config_of a) s1 in
  (forall x, outcome t = Return x ->
     outcome (reload w s) = Return tt
     /\ this (final (reload w s)) = this (final t)
     /\ hookCalls (emitted (reload w s)) = hookCalls (emitted t))
  /\ (forall e, outcome t = Throw e ->
        this (final (reload w s)) = this (final t)
        /\ hookCalls (emitted (reload w s)) = hookCalls (emitted t)
        /\ handled w "Failed to reload widget" e (reload w s)).
Proof.
  intros H Ha s1 t.
  pose proof (reloadBody_after_authorize w s a H) as Hrun.
  cbv zeta in Hrun. rewrite Ha in Hrun. fold s1 in Hrun. fold t in Hrun.
  split.
  - intros [] Hx.
    assert (Hb : outcome (reloadBody w s) = Return tt) by now rewrite Hrun.
    unfold reload. rewrite (try_catch_returns _ _ _ _ Hb), Hrun.
    cbn [outcome final emitted]. split; [exact Hx|]. split; [reflexivity|].
    now rewrite hookCalls_app, (hookCalls_none _ (reload_quiet_prefix w s)).
  - intros e He.
    assert (Hb : outcome (reloadBody w s) = Throw e) by now rewrite Hrun.
    split; [|split].
    3: { exact (boundary_handled w (reloadBody w) "Failed to reload widget"
                  s e Hb). }
    + unfold reload. rewrite (try_catch_throws _ _ _ _ Hb), Hrun.
      cbn [final]. apply quiet_handleError.
    + unfold reload. rewrite (try_catch_throws _ _ _ _ Hb), Hrun.
      cbn [final emitted].
      destruct (quiet_handleError w "Failed to reload widget" e (final t))
        as (_ & _ & Hq).
      rewrite hookCalls_app, (hookCalls_none _ Hq), app_nil_r.
      now rewrite hookCalls_app,
        (hookCalls_none _ (reload_quiet_prefix w s)).
Qed.

End ReloadTail.

Lemma hookCalls_log (w : Widget) message s :
  hookCalls (emitted (log w message s)) = [].
Proof. apply hookCalls_none, quiet_log. Qed.

(** X14. [reload] of a widget that implements [onConfigUpdate], on an
    authorized result: the only hook called is [onConfigUpdate], with the
    new config; [onDestroy] and [onRender] are not called.  If the hook
    returns, [reload] returns and the stored config becomes the new one.
    If it throws, the stored config is not assigned and the error is
    written to the error channel; when the error can be reported in full,
    [reload] returns and has sent the report. *)
Theorem reload_with_update (w : Widget) (s : State) (a : AuthResponse)
    (update : WidgetConfig -> HostCode) :
  outcome (authorize w (final (clearCache w s))) = Return a ->
  authorized a = true ->
  onConfigUpdate (hooks w) = Some update ->
  let s1 := set_this (with_authData (Some a))
              (final (authorize w (final (clearCache w s)))) in
  let r := reload w s in
  hookCalls (emitted r) = [Hook (OnConfigUpdate (config_of a))]
  /\ (forall s2,
        update (config_of a) s1 = (Return tt, s2) ->
        outcome r = Return tt
        /\ this (final r) = with_config (config_of a) (this s2))
  /\ (forall e s2,
        update (config_of a) s1 = (Throw e, s2) ->
        this (final r) = this s2
        /\ handled w "Failed to reload widget" e r).
Proof.
  intros H Ha Hupdate s1 r. subst r.
  destruct (reload_authorized_run w s a H Ha) as (Hret & Hthrow).
  cbv zeta in Hret, Hthrow. fold s1 in Hret, Hthrow.
  rewrite (reloadTail_update w update _ _ Hupdate) in Hret, Hthrow.
  destruct (update (config_of a) s1) as [[[]|e] s2] eqn:Hu.
  - destruct (Hret tt eq_refl) as (Ho & Ht & Hc).
    cbn [final emitted] in Ht, Hc.
    split; [|split].
    + rewrite Hc. cbn. now rewrite hookCalls_log.
    + intros s2' [= <-]. auto.
    + intros e s2' [=].
  - destruct (Hthrow e eq_refl) as (Ht & Hc & Hr).
    cbn [final emitted] in Ht, Hc.
    split; [exact Hc|]. split.
    + intros s2' [=].
    + intros e' s2' [= <- <-]. auto.
Qed.

(** X15. [reload] of a widget without [onConfigUpdate], on an authorized
    result: [onDestroy] is called, then [onRender] with the new config, and
    then [reload] returns with the stored config replaced by the new one.
    If [onDestroy] throws, [onRender] is not called; if either throws, the
    stored config is not assigned and the error is written to the error
    channel; when the error can be reported in full, [reload] returns and
    has sent the report. *)
Theorem reload_rerenders (w : Widget) (s : State) (a : AuthResponse) :
  outcome (authorize w (final (clearCache w s))) = Return a ->
  authorized a = true ->
  onConfigUpdate (hooks w) = None ->
  let s1 := set_this (with_authData (Some a))
              (final (authorize w (final (clearCache w s)))) in
  let r := reload w s in
  (forall s2 s3,
      onDestroy (hooks w) s1 = (Return tt, s2) ->
      onRender (hooks w) (config_of a) s2 = (Return tt, s3) ->
      outcome r = Return tt
      /\ hookCalls (emitted r)
         = [Hook OnDestroy; Hook (OnRender (config_of a))]
      /\ this (final r) = with_config (config_of a) (this s3))
  /\ (forall e s2,
        onDestroy (hooks w) s1 = (Throw e, s2) ->
        hookCalls (emitted r) = [Hook OnDestroy]
        /\ this (final r) = this s2
        /\ handled w "Failed to reload widget" e r)
  /\ (forall e s2 s3,
        onDestroy (hooks w) s1 = (Return tt, s2) ->
        onRender (hooks w) (config_of a) s2 = (Throw e, s3) ->
        hookCalls (emitted r)
        = [Hook OnDestroy; Hook (OnRender (config_of a))]
        /\ this (final r) = this s3
        /\ handled w "Failed to reload widget" e r).
Proof.
  intros H Ha Hnone s1 r. subst r.
  destruct (reload_authorized_run w s a H Ha) as (Hret & Hthrow).
  cbv zeta in Hret, Hthrow. fold s1 in Hret, Hthrow.
  rewrite (reloadTail_rerender w _ _ Hnone) in Hret, Hthrow.
  split; [|split].
  - intros s2 s3 Hd Hr. rewrite Hd, Hr in Hret.
    destruct (Hret tt eq_refl) as (Ho & Ht & Hc).
    cbn [final emitted] in Ht, Hc.
    split; [exact Ho|]. split; [|exact Ht].
    rewrite Hc. cbn. now rewrite hookCalls_log.
  - intros e s2 Hd. rewrite Hd in Hthrow.
    destruct (Hthrow e eq_refl) as (Ht & Hc & Hr).
    cbn [final emitted] in Ht, Hc. auto.
  - intros e s2 s3 Hd Hr. rewrite Hd, Hr in Hthrow.
    destruct (Hthrow e eq_refl) as (Ht & Hc & Hrep).
    cbn [final emitted] in Ht, Hc. auto.
Qed.

(** X16. [reload] never answers from the cache.  It removes the key of the
    instance first, also with [cache: false]; the lookup that follows finds
    nothing; so with no preview override and at least one attempt allowed,
    every [reload] sends a request to the authorization endpoint. *)
Theorem reload_bypasses_cache (w : Widget) (s : State) :
  (exists l, emitted (reload w s) = RemoveItem (getCacheKey w) :: l)
  /\ outcome (cacheLookup w (final (clearCache w s))) = Return None
  /\ (previewConfig (browser s) = None ->
      1 <= retryAttempts (options w) ->
      In (FetchGet (authUrl w)) (emitted (reload w s))).
Proof.
  assert (Hclear : exists l0, emitted (clearCache w s)
                              = RemoveItem (getCacheKey w) :: l0).
  { unfold clearCache, removeItem, try_catch, bind, get, modify, emit, ret,
      throw; cbn.
    destruct (localStorage (browser s)); cbn; eauto. }
  assert (Hlookup : outcome (cacheLookup w (final (clearCache w s)))
                    = Return None).
  { unfold cacheLookup. destruct (cache (options w)); [|reflexivity].
    apply clearCache_then_lookup_aux. }
  assert (Hbody : exists l1, emitted (reloadBody w s)
                    = emitted (clearCache w s)
                      ++ emitted (authorize w (final (clearCache w s)))
                      ++ l1).
  { unfold reloadBody.
    rewrite (bind_returns _ _ _ _ (clearCache_returns w s)).
    cbn [emitted].
    destruct (outcome (authorize w (final (clearCache w s))))
      as [a|e] eqn:Ha.
    - rewrite (bind_returns _ _ _ _ Ha); cbn [emitted]. eauto.
    - rewrite (bind_throws _ _ _ _ Ha); cbn [emitted].
      exists []. now rewrite app_nil_r. }
  assert (Hreload : exists l2, emitted (reload w s)
                               = emitted (reloadBody w s) ++ l2).
  { unfold reload.
    destruct (outcome (reloadBody w s)) as [[]|e] eqn:Hb.
    - rewrite (try_catch_returns _ _ _ _ Hb). exists [].
      now rewrite app_nil_r.
    - rewrite (try_catch_throws _ _ _ _ Hb); cbn [emitted]. eauto. }
  destruct Hclear as (l0 & Hl0), Hbody as (l1 & Hl1), Hreload as (l2 & Hl2).
  split; [|split; [exact Hlookup|]].
  - rewrite Hl2, Hl1, Hl0. cbn. eauto.
  - intros Hp HN. rewrite Hl2, Hl1.
    apply in_or_app. left. apply in_or_app. right. apply in_or_app. left.
    assert (Hp' : previewConfig (browser (final (clearCache w s))) = None).
    { unfold clearCache, removeItem, try_catch, bind, get, modify, emit,
        ret, throw; cbn.
      destruct (localStorage (browser s)); cbn; exact Hp. }
    rewrite (authorize_network w _ Hp' Hlookup). cbv zeta. cbn [emitted].
    apply in_or_app. right. now apply networkStage_requests.
Qed.

(** ** Telemetry *)


(** ** Construction *)

Lemma attributeOr_empty (script : gmap string string) (name : string) :
  attributeOr script name = ""
  <-> script !! name = None \/ script !! name = Some "".
Proof.
  unfold attributeOr. destruct (script !! name) as [[|c v]|]; cbn.
  - split; auto.
  - split; [discriminate|]. intros [H|H]; discriminate.
  - split; auto.
Qed.

Lemma attributeOr_value (script : gmap string string) (name v : string) :
  script !! name = Some v -> attributeOr script name = v.
Proof. unfold attributeOr. intros ->. now destruct v. Qed.

Lemma falsy_empty (v : string) : falsy v = true <-> v = "".
Proof. destruct v; cbn; split; congruence. Qed.

(** X18. The constructor, on a page where [document] exists.  Without a
    current script it throws "Could not find script tag".  With one, it
    throws "Missing required data attributes" as soon as one of the three
    attributes is absent or empty; otherwise it returns an instance whose
    ids and URL are the attributes, whose name and version are the ones
    given, and whose options are the defaults overridden by the given ones.
    It never changes the state. *)
Theorem constructor_outcome (k : Sdk) (h : Hooks)
    (currentScript : option (gmap string string))
    (widgetOptions : WidgetOptions) (s : State) :
  document (browser s) <> None ->
  let r := constructor k h currentScript widgetOptions s in
  final r = s
  /\ (currentScript = None ->
      outcome r = Throw (ErrorObj "[Widget SDK] Could not find script tag"))
  /\ (forall script name,
        currentScript = Some script ->
        In name ["data-website-id"; "data-app-id"; "data-app-manager-url"] ->
        script !! name = None \/ script !! name = Some "" ->
        outcome r
        = Throw (ErrorObj "[Widget SDK] Missing required data attributes"))
  /\ (forall script website app url,
        currentScript = Some script ->
        script !! "data-website-id" = Some website ->
        script !! "data-app-id" = Some app ->
        script !! "data-app-manager-url" = Some url ->
        website <> "" -> app <> "" -> url <> "" ->
        outcome r
        = Return {| sdk := k; websiteId := website; appId := app;
                    koruUrl := url; widgetName := wo_name widgetOptions;
                    widgetVersion := wo_version widgetOptions;
                    options := mergeOptions (wo_options widgetOptions);
                    hooks := h |}).
Proof.
  intros Hdoc r. subst r. unfold constructor.
  rewrite (bind_returns get _ s s eq_refl). cbn [outcome final emitted get].
  destruct (document (browser s)) as [d|]; [clear Hdoc|congruence].
  destruct currentScript as [script|].
  2: { cbn. repeat split; intros; congruence. }
  set (website := attributeOr script "data-website-id").
  set (app := attributeOr script "data-app-id").
  set (url := attributeOr script "data-app-manager-url").
  destruct (falsy website || falsy app || falsy url) eqn:Hf.
  - cbn. split; [reflexivity|]. split; [discriminate|]. split.
    + reflexivity.
    + intros script' ws ap u [= <-] Hw Ha Hu Hw' Ha' Hu'. exfalso.
      apply orb_true_iff in Hf as [Hf|Hf];
        [apply orb_true_iff in Hf as [Hf|Hf]|];
        apply falsy_empty in Hf.
      * subst website. rewrite (attributeOr_value _ _ _ Hw) in Hf. auto.
      * subst app. rewrite (attributeOr_value _ _ _ Ha) in Hf. auto.
      * subst url. rewrite (attributeOr_value _ _ _ Hu) in Hf. auto.
  - apply orb_false_iff in Hf as [Hf Hu]. apply orb_false_iff in Hf as [Hw Ha].
    match goal with
    | |- context [bind (log ?x ?m) ?k s] =>
        rewrite (bind_returns (log x m) k s tt) by now rewrite log_run
    end.
    rewrite !log_run. cbn [outcome final emitted ret].
    split; [reflexivity|]. split; [discriminate|]. split.
    + intros script' name [= <-] Hin Hmissing. exfalso.
      apply attributeOr_empty in Hmissing.
      destruct Hin as [<-|[<-|[<-|[]]]].
      * fold website in Hmissing. rewrite Hmissing in Hw. discriminate.
      * fold app in Hmissing. rewrite Hmissing in Ha. discriminate.
      * fold url in Hmissing. rewrite Hmissing in Hu. discriminate.
    + intros script' ws ap u [= <-] Hws Hap Hurl _ _ _.
      subst website app url.
      now rewrite (attributeOr_value _ _ _ Hws),
        (attributeOr_value _ _ _ Hap), (attributeOr_value _ _ _ Hurl).
Qed.

(** ** Two authorizations in a row *)

Section Again.

Variable w : Widget.

Lemma authorize_keeps_preview :
  preserves (fun s => previewConfig (browser s)) (authorize w).
Proof.
  assert (Hlog : forall m, preserves (fun s => previewConfig (browser s))
                             (log w m)).
  { intros m. unfold log. repeat preserves_step. }
  assert (Hit : forall a, preserves (fun s => previewConfig (browser s))
                            (iteration w a)).
  { intros a.
    unfold iteration, attemptOnce, attemptFailed, saveToCache, fetch, json,
      sleep, setItem, Date_now.
    repeat first [apply Hlog | preserves_step]. }
  assert (Hloop : forall l e, preserves (fun s => previewConfig (browser s))
                                (retryLoop w l e)).
  { induction l as [|a l IH]; intros e; cbn [retryLoop].
    - apply preserves_throw.
    - apply preserves_bind; [apply Hit|].
      intros [d|e']; [apply preserves_ret|apply IH]. }
  unfold authorize, cacheLookup, networkStage, getFromCache, clearCache,
    getItem, removeItem, Date_now.
  repeat first [apply Hlog | apply Hloop | preserves_step].
Qed.

(** [authorize] when the store holds a fresh entry. *)
Lemma authorize_served s m data t :
  cache (options w) = true ->
  previewConfig (browser s) = None ->
  localStorage (browser s) = Some m ->
  m !! getCacheKey w = Some (Parsed (Some data) (Some t)) ->
  expired w (clock (browser s)) t = false ->
  outcome (authorize w s) = Return data
  /\ count isRequest (emitted (authorize w s)) = 0%nat.
Proof.
  intros Hcache Hp Hm Hk He.
  pose proof (getFromCache_entry w s m data t Hm Hk He) as Hrun.
  unfold authorize. rewrite (bind_returns get _ s s eq_refl).
  cbn [outcome final emitted get].
  replace (previewOf w (browser s)) with (@None WidgetConfig)
    by (unfold previewOf; now destruct (sdk w)).
  unfold cacheLookup. rewrite Hcache.
  rewrite (bind_returns _ _ s (Some data)) by now rewrite Hrun.
  rewrite Hrun. cbn [outcome final emitted].
  rewrite (bind_returns _ _ s tt) by now rewrite log_run.
  rewrite !log_run. cbn [outcome final emitted ret].
  split; [reflexivity|]. destruct (debug (options w)); reflexivity.
Qed.

End Again.

(** X19. A second [authorize] after a successful one.  When [authorize]
    got its result from the network, after any number of failed attempts,
    with caching on
    and a writable store, a later [authorize] in the state it left returns
    the same result without any request, as long as no more than
    [cacheDuration] seconds passed since the result arrived.  This holds
    for a result that is not authorized as well: a denial is cached like a
    grant. *)
Theorem authorize_again (w : Widget) (s : State) (k : nat) (status : Z)
    (data : AuthResponse) (m : gmap string Stored) (elapsed : Z) :
  Z.of_nat k < retryAttempts (options w) ->
  previewConfig (browser s) = None ->
  outcome (cacheLookup w s) = Return None ->
  (forall i, (i < k)%nat ->
     attemptError (server (browser s) (requests (browser s) + i)%nat
                     (authUrl w)) <> None) ->
  server (browser s) (requests (browser s) + k)%nat (authUrl w)
  = Response status (Json data) ->
  ok status = true ->
  cache (options w) = true ->
  quotaExceeded (browser s) = false ->
  localStorage (browser s) = Some m ->
  elapsed <= 1000 * cacheDuration (options w) ->
  let first := authorize w s in
  let later :=
    set_browser (with_clock (clock (browser (final first)) + elapsed))
      (final first) in
  outcome first = Return data
  /\ outcome (authorize w later) = Return data
  /\ count isRequest (emitted (authorize w later)) = 0%nat.
Proof.
  intros Hk Hp Hc Hfail Hserver Hok Hcache Hquota Hm Hel first later.
  destruct (authorize_first_success w s k status data Hk Hp Hc Hfail
              Hserver Hok) as (Ho & _ & _ & Hstore).
  destruct (Hstore Hcache Hquota m Hm) as (m' & Hm' & Hentry).
  fold first in Ho, Hm', Hentry.
  split; [exact Ho|].
  apply (authorize_served w later m' data (clock (browser (final first)))).
  - exact Hcache.
  - pose proof (authorize_keeps_preview w s) as Hkeep. cbv beta in Hkeep.
    subst later first. unfold set_browser, with_clock.
    cbn [browser previewConfig]. now rewrite Hkeep.
  - subst later. unfold set_browser, with_clock.
    cbn [browser localStorage]. exact Hm'.
  - exact Hentry.
  - apply expired_false, age_le_iff. subst later.
    unfold set_browser, with_clock. cbn [browser clock]. lia.
Qed.

(** ** isMobile *)

Lemma startsWith_iff (p s : string) :
  startsWith p s = true
  <-> exists mid post, s = mid +:+ post /\ uppercase mid = uppercase p.
Proof.
  revert s. induction p as [|a p IH]; intros s.
  - split; [|reflexivity]. intros _. now exists "", s.
  - destruct s as [|b s]; cbn [startsWith].
    + split; [discriminate|].
      intros ([|c mid] & post & Hs & Hu); discriminate.
    + rewrite andb_true_iff, Ascii.eqb_eq, IH. split.
      * intros (Hc & mid & post & -> & Hu).
        exists (String b mid), post. split; [reflexivity|].
        cbn [uppercase]. now rewrite Hu, Hc.
      * intros ([|c mid] & post & Hs & Hu); [discriminate|].
        rewrite append_String in Hs. injection Hs as -> ->.
        cbn [uppercase] in Hu. injection Hu as Hc Hu.
        split; [now symmetry|]. now exists mid, post.
Qed.

Lemma matches_iff (p s : string) :
  matches p s = true
  <-> exists pre mid post,
        s = pre +:+ mid +:+ post /\ uppercase mid = uppercase p.
Proof.
  induction s as [|b s IH]; cbn [matches];
    rewrite orb_true_iff, startsWith_iff.
  - split.
    + intros [(mid & post & Hs & Hu)|H]; [|discriminate].
      now exists "", mid, post.
    + intros ([|c pre] & mid & post & Hs & Hu); [|discriminate].
      left. now exists mid, post.
  - rewrite IH. split.
    + intros [(mid & post & Hs & Hu)|(pre & mid & post & -> & Hu)].
      * now exists "", mid, post.
      * now exists (String b pre), mid, post.
    + intros ([|c pre] & mid & post & Hs & Hu).
      * left. now exists mid, post.
      * rewrite append_String in Hs. injection Hs as -> ->.
        right. now exists pre, mid, post.
Qed.

(** X20. [isMobile] is true exactly when the user agent contains one of
    the seven names Android, iPhone, iPad, iPod, BlackBerry, IEMobile or
    "Opera Mini" somewhere, in any mix of upper and lower case. *)
Theorem isMobile_iff (userAgent : string) :
  isMobile userAgent = true
  <-> exists name pre mid post,
        In name mobileNames
        /\ userAgent = pre +:+ mid +:+ post
        /\ uppercase mid = uppercase name.
Proof.
  unfold isMobile. rewrite existsb_exists. split.
  - intros (name & Hin & Hm). apply matches_iff in Hm.
    destruct Hm as (pre & mid & post & Hs & Hu).
    now exists name, pre, mid, post.
  - intros (name & pre & mid & post & Hin & Hs & Hu).
    exists name. split; [exact Hin|]. apply matches_iff.
    now exists pre, mid, post.
Qed.

(** * More examples *)

Example isMobile_examples :
  isMobile "Mozilla/5.0 (iPhone; CPU iPhone OS 17_0 like Mac OS X) Safari"
  = true
  /\ isMobile "Mozilla/5.0 (Linux; ANDROID 14) Chrome/120.0 Mobile" = true
  /\ isMobile "Mozilla/5.0 (X11; Linux x86_64) Chrome/120.0 Safari/537.36"
     = false
  /\ isMobile "" = false.
Proof. repeat split; reflexivity. Qed.

Lemma cache_round_trip_witness :
  let later :=
    set_browser (with_clock (1000000 + 3600000))
      (final (saveToCache demo granted (atTime ∅ 1000000 down created))) in
  outcome (getFromCache tracked later) = Return (Some granted)
  /\ final (getFromCache tracked later) = later.
Proof.
  apply (cache_round_trip demo tracked (atTime ∅ 1000000 down created)
           ∅ granted 3600000); first [reflexivity | cbn; lia].
Defined.

Lemma saveToCache_failure_witness :
  let s := set_browser (with_localStorage None)
             (atTime ∅ 1000000 down created) in
  outcome (saveToCache demo granted s) = Return tt
  /\ final (saveToCache demo granted s) = s.
Proof.
  apply (saveToCache_failure demo granted
           (set_browser (with_localStorage None)
              (atTime ∅ 1000000 down created))).
  left. reflexivity.
Defined.

Lemma clearCache_then_lookup_witness :
  let s := atTime sharedStore 1000500 down created in
  outcome (getFromCache demo (final (clearCache demo s))) = Return None
  /\ localStorage (browser (final (clearCache demo s)))
     = Some (delete "koru_widget_site-1_app-1" sharedStore)
  /\ delete "koru_widget_site-1_app-1" sharedStore !! "theme"
     = sharedStore !! "theme".
Proof.
  cbv zeta.
  destruct (clearCache_then_lookup demo
              (atTime sharedStore 1000500 down created))
    as (H1 & H2 & H3).
  split; [exact H1|]. split.
  - apply (H2 sharedStore). reflexivity.
  - apply (H3 sharedStore (delete "koru_widget_site-1_app-1" sharedStore)
             "theme").
    + reflexivity.
    + reflexivity.
    + discriminate.
Defined.

Lemma getFromCache_garbage_witness :
  let s := atTime {[ "koru_widget_site-1_app-1" := Unparseable ]}
             1000500 down created in
  outcome (getFromCache demo s) = Return None
  /\ final (getFromCache demo s) = s
  /\ count isCacheWrite (emitted (getFromCache demo s)) = 0%nat.
Proof.
  apply (getFromCache_garbage demo
           (atTime {[ "koru_widget_site-1_app-1" := Unparseable ]}
              1000500 down created)
           {[ "koru_widget_site-1_app-1" := Unparseable ]}).
  - reflexivity.
  - right. right. reflexivity.
Defined.

Lemma authorize_without_cache_witness :
  let s := atTime storeOfDemo 1000500 grants created in
  count isCacheRead (emitted (authorize uncached s)) = 0%nat
  /\ count isCacheWrite (emitted (authorize uncached s)) = 0%nat
  /\ localStorage (browser (final (authorize uncached s))) = Some storeOfDemo.
Proof.
  apply (authorize_without_cache uncached
           (atTime storeOfDemo 1000500 grants created)).
  reflexivity.
Defined.

Lemma debug_off_is_silent_witness :
  let s := atTime ∅ 1000000 grants created in
  count isConsoleLog (emitted (start demo s)) = 0%nat
  /\ count isConsoleLog (emitted (stop demo s)) = 0%nat
  /\ count isConsoleLog (emitted (reload demo s)) = 0%nat.
Proof.
  apply (debug_off_is_silent demo (atTime ∅ 1000000 grants created)).
  reflexivity.
Defined.

Lemma authorize_succeeds_after_witness :
  let r := authorize demo (atTime ∅ 1000000 flaky created) in
  outcome r = Return granted
  /\ count isRequest (emitted r) = 3%nat
  /\ schedule (emitted r)
     = [FetchGet (authUrl demo); SetTimeout 1000;
        FetchGet (authUrl demo); SetTimeout 1000;
        FetchGet (authUrl demo)].
Proof.
  cbv zeta.
  destruct (authorize_succeeds_after demo (atTime ∅ 1000000 flaky created)
              2 200 granted)
    as (Ho & Hc & Hsch & _).
  - cbn. lia.
  - reflexivity.
  - reflexivity.
  - intros [|[|i]] Hi; [discriminate|discriminate|lia].
  - reflexivity.
  - reflexivity.
  - split; [exact Ho|]. split; [exact Hc|]. exact Hsch.
Defined.

Lemma authorize_exhausts_on_any_error_witness :
  let r := authorize demo (atTime ∅ 1000000 garbled created) in
  outcome r = Throw (syntaxError "Unexpected token <")
  /\ count isRequest (emitted r) = 3%nat
  /\ localStorage (browser (final r)) = Some ∅.
Proof.
  cbv zeta.
  destruct (authorize_exhausts_on_any_error demo
              (atTime ∅ 1000000 garbled created) 3)
    as ((e & Ho & He) & Hc & Hs).
  - reflexivity.
  - lia.
  - reflexivity.
  - reflexivity.
  - intros i. discriminate.
  - injection He as <-. split; [exact Ho|]. split; [exact Hc|exact Hs].
Defined.

Lemma start_success_witness :
  let r := start tracked (atTime ∅ 1000000 grants created) in
  outcome r = Return tt
  /\ hookCalls (emitted r)
     = [Hook (OnInit (config_of granted));
        Hook (OnRender (config_of granted))]
  /\ isInitialized (this (final r)) = true
  /\ exists body,
       In (FetchPost "https://koru.example/api/analytics" body) (emitted r)
       /\ event_type body = "widget_loaded".
Proof.
  cbv zeta.
  set (s := atTime ∅ 1000000 grants created).
  set (s3 := authorizedState granted
               (final (authorize tracked (final (waitForDOM s))))).
  destruct (start_success tracked s granted s3 s3)
    as (Ho & Hc & Ht & Hp); try reflexivity.
  split; [exact Ho|]. split; [exact Hc|]. split; [now rewrite Ht|].
  destruct (Hp eq_refl) as (body & Hin & Hty & _).
  exists body. split; [exact Hin|exact Hty].
Defined.

Lemma start_hook_failure_witness :
  let s := atTime ∅ 1000000 grants created in
  (hookCalls (emitted (start crashing s))
   = [Hook (OnInit (config_of granted))]
   /\ isInitialized (this (final (start crashing s))) = false
   /\ outcome (start crashing s) = Return tt
   /\ reported crashing "Failed to start widget"
        (ErrorObj "mount point not found") (emitted (start crashing s)))
  /\ (hookCalls (emitted (start unrendered s))
      = [Hook (OnInit (config_of granted));
         Hook (OnRender (config_of granted))]
      /\ isInitialized (this (final (start unrendered s))) = false
      /\ outcome (start unrendered s) = Return tt
      /\ reported unrendered "Failed to start widget"
           (ErrorObj "container is null") (emitted (start unrendered s))).
Proof.
  cbv zeta. set (s := atTime ∅ 1000000 grants created). split.
  - set (s2 := authorizedState granted
                 (final (authorize crashing (final (waitForDOM s))))).
    destruct (proj1 (start_hook_failure crashing s granted
                       eq_refl eq_refl eq_refl)
                (ErrorObj "mount point not found") s2 eq_refl)
      as (Hc & Ht & _ & Hr).
    split; [exact Hc|]. split; [now rewrite Ht|]. apply Hr.
    right. exists (Some "mount point not found"). reflexivity.
  - set (s2 := authorizedState granted
                 (final (authorize unrendered (final (waitForDOM s))))).
    destruct (proj2 (start_hook_failure unrendered s granted
                       eq_refl eq_refl eq_refl)
                (ErrorObj "container is null") s2 s2 eq_refl eq_refl)
      as (Hc & Ht & _ & Hr).
    split; [exact Hc|]. split; [now rewrite Ht|]. apply Hr.
    right. exists (Some "container is null"). reflexivity.
Defined.

Lemma reload_with_update_witness :
  let r := reload updating (atTime storeOfDemo 1000500 grants created) in
  outcome r = Return tt
  /\ hookCalls (emitted r) = [Hook (OnConfigUpdate (config_of granted))]
  /\ config (this (final r)) = config_of granted.
Proof.
  cbv zeta. set (s := atTime storeOfDemo 1000500 grants created).
  set (s1 := set_this (with_authData (Some granted))
               (final (authorize updating (final (clearCache updating s))))).
  destruct (reload_with_update updating s granted (fun _ => returns)
              eq_refl eq_refl eq_refl)
    as (Hc & Ht & _).
  destruct (Ht s1 eq_refl) as (Ho & Hthis).
  split; [exact Ho|]. split; [exact Hc|].
  now rewrite Hthis.
Defined.

Lemma reload_rerenders_witness :
  let s := atTime storeOfDemo 1000500 grants created in
  (outcome (reload demo s) = Return tt
   /\ hookCalls (emitted (reload demo s))
      = [Hook OnDestroy; Hook (OnRender (config_of granted))]
   /\ config (this (final (reload demo s))) = config_of granted)
  /\ (hookCalls (emitted (reload faulty s)) = [Hook OnDestroy]
      /\ config (this (final (reload faulty s))) = ∅
      /\ outcome (reload faulty s) = Return tt).
Proof.
  cbv zeta. set (s := atTime storeOfDemo 1000500 grants created). split.
  - set (s1 := set_this (with_authData (Some granted))
                 (final (authorize demo (final (clearCache demo s))))).
    destruct (reload_rerenders demo s granted eq_refl eq_refl eq_refl)
      as (H & _).
    destruct (H s1 s1 eq_refl eq_refl) as (Ho & Hc & Ht).
    split; [exact Ho|]. split; [exact Hc|]. now rewrite Ht.
  - set (s1 := set_this (with_authData (Some granted))
                 (final (authorize faulty (final (clearCache faulty s))))).
    destruct (reload_rerenders faulty s granted eq_refl eq_refl eq_refl)
      as (_ & H & _).
    destruct (H (ErrorObj "listener already removed") s1 eq_refl)
      as (Hc & Ht & _ & Hr).
    split; [exact Hc|]. split; [now rewrite Ht|]. apply Hr.
    right. exists (Some "listener already removed"). reflexivity.
Defined.

Lemma reload_bypasses_cache_witness :
  let s := atTime storeOfDemo 1000500 grants running in
  In (FetchGet (authUrl demo)) (emitted (reload demo s)).
Proof.
  cbv zeta.
  apply (proj2 (proj2 (reload_bypasses_cache demo
                         (atTime storeOfDemo 1000500 grants running)))).
  - reflexivity.
  - cbn. lia.
Defined.


Lemma constructor_outcome_witness :
  let s := atTime ∅ 1000000 grants created in
  outcome (constructor Koru plainHooks (Some scriptTag) demoOptions s)
  = Return demo
  /\ outcome (constructor Koru plainHooks
                (Some (delete "data-app-id" scriptTag)) demoOptions s)
     = Throw (ErrorObj "[Widget SDK] Missing required data attributes")
  /\ outcome (constructor Koru plainHooks None demoOptions s)
     = Throw (ErrorObj "[Widget SDK] Could not find script tag").
Proof.
  cbv zeta. set (s := atTime ∅ 1000000 grants created).
  assert (Hdoc : document (browser s) <> None) by discriminate.
  split; [|split].
  - destruct (constructor_outcome Koru plainHooks (Some scriptTag)
                demoOptions s Hdoc) as (_ & _ & _ & H).
    apply (H scriptTag "site-1" "app-1" "https://koru.example");
      first [reflexivity | discriminate].
  - destruct (constructor_outcome Koru plainHooks
                (Some (delete "data-app-id" scriptTag)) demoOptions s Hdoc)
      as (_ & _ & H & _).
    apply (H (delete "data-app-id" scriptTag) "data-app-id").
    + reflexivity.
    + right. now left.
    + left. reflexivity.
  - destruct (constructor_outcome Koru plainHooks None demoOptions s Hdoc)
      as (_ & H & _).
    now apply H.
Defined.

(** A denial is cached like a grant: half an hour later [authorize] still
    answers with it, and asks nobody. *)
Lemma authorize_again_witness :
  let first := authorize demo (atTime ∅ 1000000 denies created) in
  let later :=
    set_browser (with_clock (clock (browser (final first)) + 1800000))
      (final first) in
  outcome first = Return denied
  /\ outcome (authorize demo later) = Return denied
  /\ count isRequest (emitted (authorize demo later)) = 0%nat.
Proof.
  apply (authorize_again demo (atTime ∅ 1000000 denies created) 0 200
           denied ∅ 1800000);
    first [reflexivity | cbn; lia | intros i Hi; lia].
Defined.

(** * Frames *)

(** X21. [authorize] is the business of the browser only: on every path
    (preview, cache, network, failure) it calls no hook and assigns no
    field of the instance; [authData] and [config] change in [start] and
    [reload] alone. *)
Theorem authorize_assigns_nothing (w : Widget) (s : State) :
  this (final (authorize w s)) = this s
  /\ hookCalls (emitted (authorize w s)) = [].
Proof.
  destruct (quiet_authorize w s) as (Ht & _ & Hq).
  split; [exact Ht|]. now apply hookCalls_none.
Qed.

Section AnalyticsOff.

Variable w : Widget.
Hypothesis Hoff : analytics (options w) = false.

Lemma analyticsOff_log message : emits notPost (log w message).
Proof. unfold log. repeat emits_step. Qed.

Lemma analyticsOff_handleError message error :
  emits notPost (handleError w message error).
Proof. unfold handleError. rewrite Hoff. repeat emits_step. Qed.

Lemma analyticsOff_iteration attempt : emits notPost (iteration w attempt).
Proof.
  unfold iteration, attemptOnce, attemptFailed, saveToCache, fetch, json,
    sleep, setItem, Date_now.
  repeat first [apply analyticsOff_log | emits_step].
Qed.

Lemma analyticsOff_retryLoop attempts lastError :
  emits notPost (retryLoop w attempts lastError).
Proof.
  revert lastError.
  induction attempts as [|attempt rest IH]; intros lastError;
    cbn [retryLoop].
  - apply emits_throw.
  - apply emits_bind; [apply analyticsOff_iteration|].
    intros [data|e]; [apply emits_ret|apply IH].
Qed.

Lemma analyticsOff_authorize : emits notPost (authorize w).
Proof.
  unfold authorize, cacheLookup, networkStage, getFromCache, clearCache,
    getItem, removeItem, Date_now.
  repeat first [apply analyticsOff_retryLoop | apply analyticsOff_log
               | emits_step].
Qed.

Lemma analyticsOff_start : emits notPost (start w).
Proof.
  unfold start, startBody, waitForDOM, readAuthData. rewrite Hoff.
  repeat first [apply analyticsOff_authorize | apply analyticsOff_handleError
               | apply analyticsOff_log | emits_step].
Qed.

Lemma analyticsOff_stop : emits notPost (stop w).
Proof.
  unfold stop, stopBody.
  repeat first [apply analyticsOff_handleError | apply analyticsOff_log
               | emits_step].
Qed.

Lemma analyticsOff_reload : emits notPost (reload w).
Proof.
  unfold reload, reloadBody, readAuthData, clearCache, removeItem.
  repeat first [apply analyticsOff_authorize | apply analyticsOff_handleError
               | apply analyticsOff_log | emits_step].
Qed.

End AnalyticsOff.

(** X22. With [analytics: false] the runtime sends no telemetry: no run of
    [start], [stop] or [reload] posts anything, on success or on failure,
    whatever the hooks do. *)
Theorem analytics_off_posts_nothing (w : Widget) (s : State) :
  analytics (options w) = false ->
  count isPost (emitted (start w s)) = 0%nat
  /\ count isPost (emitted (stop w s)) = 0%nat
  /\ count isPost (emitted (reload w s)) = 0%nat.
Proof.
  intros Hoff.
  assert (Hs : forall e, negb (isPost e) = true -> isPost e = false)
    by (intros e; apply negb_true_iff).
  split; [|split]; (eapply emits_count; [exact Hs|]).
  - now apply analyticsOff_start.
  - now apply analyticsOff_stop.
  - now apply analyticsOff_reload.
Qed.

Lemma analytics_off_posts_nothing_witness :
  let s := atTime ∅ 1000000 down created in
  count isPost (emitted (start demo s)) = 0%nat
  /\ count isPost (emitted (stop demo s)) = 0%nat
  /\ count isPost (emitted (reload demo s)) = 0%nat.
Proof.
  apply (analytics_off_posts_nothing demo (atTime ∅ 1000000 down created)).
  reflexivity.
Defined.

(** * The error boundary *)

(** X23. The error boundary of [start], [stop] and [reload], in full.  When
    the [try] block returns, the call is the [try] block.  When it throws,
    the thrown value is written to the error channel under the text of the
    method; if it can be reported in full (analytics is off, or the
    telemetry field can be computed from it) the call returns and, with
    analytics on, a [widget_error] event has been sent; if analytics is on
    and computing the field throws, the call throws that error, and the
    line on the error channel is its last event.  A value made by
    [new Error(message)], and an instance of a subclass that keeps the
    inherited [toString], can always be reported. *)
Theorem lifecycle_boundary (w : Widget) (s : State) :
  guarded w "Failed to start widget" (startBody w) (start w) s
  /\ guarded w "Failed to stop widget" (stopBody w) (stop w) s
  /\ guarded w "Failed to reload widget" (reloadBody w) (reload w) s
  /\ (forall name message,
        reportable w (ErrorObj message)
        /\ reportable w (errorOf name message)).
Proof.
  assert (H : forall body message,
             guarded w message body
               (try_catch body (fun error => handleError w message error)) s).
  { intros body message.
    destruct (boundary w body message s) as (H1 & H2).
    split; [exact H1|]. intros e He.
    destruct (H2 e He) as (Hin & Hrep & Hthrow).
    split; [now split|exact Hthrow]. }
  split; [apply H|]. split; [apply H|]. split; [apply H|].
  intros name message. split; right.
  - unfold errorText, rendered. cbn.
    destruct (sdk w); [eauto|]. destruct (falsy message); eauto.
  - unfold errorText, rendered. cbn.
    destruct (sdk w); [eauto|]. destruct (falsy message); eauto.
Qed.

Lemma lifecycle_boundary_witness :
  let s := atTime ∅ 1000000 grants created in
  (outcome (start crashing s) = Return tt
   /\ reported crashing "Failed to start widget"
        (ErrorObj "mount point not found") (emitted (start crashing s)))
  /\ outcome (start (hostile Koru) s)
     = Throw (typeError "Cannot convert object to primitive value").
Proof.
  cbv zeta. split.
  - destruct (lifecycle_boundary crashing (atTime ∅ 1000000 grants created))
      as ((_ & H) & _ & _ & Hr).
    destruct (H (ErrorObj "mount point not found") eq_refl)
      as ((_ & Hrep) & _).
    apply Hrep. apply (Hr "Error" "mount point not found").
  - destruct (lifecycle_boundary (hostile Koru)
                (atTime ∅ 1000000 grants created))
      as ((_ & H) & _).
    destruct (H bare eq_refl) as (_ & Hthrow).
    apply (Hthrow (typeError "Cannot convert object to primitive value")
             eq_refl eq_refl).
Defined.

(** ** What the runtime itself throws *)

Section Raises.

Context {A B : Type} (P : Thrown -> Prop).

Lemma raises_ret (a : A) : raises P (ret a).
Proof. intros s e [=]. Qed.

Lemma raises_throw e : P e -> raises P (@throw A e).
Proof. intros H s e' [= <-]. exact H. Qed.

Lemma raises_bind (m : M A) (k : A -> M B) :
  raises P m -> (forall a, raises P (k a)) -> raises P (bind m k).
Proof.
  intros Hm Hk s e. destruct (outcome (m s)) as [a|e'] eqn:Ho.
  - rewrite (bind_returns _ _ _ _ Ho); cbn [outcome]. apply Hk.
  - rewrite (bind_throws _ _ _ _ Ho); cbn [outcome].
    intros [= <-]. now apply (Hm s).
Qed.

Lemma raises_try_catch (m : M A) h :
  (forall e, raises P (h e)) -> raises P (try_catch m h).
Proof.
  intros Hh s e. destruct (outcome (m s)) as [a|e'] eqn:Ho.
  - rewrite (try_catch_returns _ _ _ _ Ho), Ho. discriminate.
  - rewrite (try_catch_throws _ _ _ _ Ho); cbn [outcome]. apply Hh.
Qed.

End Raises.

Lemma raises_emit P e : raises P (emit e).
Proof. intros s e' [=]. Qed.

Lemma raises_get P : raises P get.
Proof. intros s e [=]. Qed.

Lemma raises_modify P f : raises P (modify f).
Proof. intros s e [=]. Qed.

Lemma raises_call h code :
  civil code -> raises (fun e => renderable e = true) (call h code).
Proof.
  intros Hc s e. unfold call. destruct (code s) as [o s'] eqn:Hs.
  cbn [outcome]. intros ->. exact (Hc s e s' Hs).
Qed.

Ltac raises_step :=
  first
    [ apply raises_bind; [|intros ?]
    | apply raises_try_catch; intros ?
    | apply raises_ret | apply raises_get | apply raises_modify
    | apply raises_emit
    | apply raises_throw; reflexivity
    | match goal with
      | |- raises _ (match ?x with _ => _ end) => destruct x
      | |- raises _ (if ?x then _ else _) => destruct x
      end ].

Section Renderable.

Variable w : Widget.

#[local] Abbreviation fine := (fun e : Thrown => renderable e = true).

Lemma raises_log message : raises fine (log w message).
Proof. unfold log. repeat raises_step. Qed.

Lemma raises_track name data : raises fine (track w name data).
Proof. unfold track, post. repeat raises_step. Qed.

Lemma attemptError_renderable o e :
  attemptError o = Some e -> renderable e = true.
Proof.
  destruct o as [message|status [message|data]]; cbn.
  - now intros [= <-].
  - destruct (ok status); now intros [= <-].
  - destruct (ok status); [discriminate|now intros [= <-]].
Qed.

(** An iteration of the retry loop does not throw, and the error it hands
    to the next one is renderable. *)
Lemma iteration_outcome attempt s :
  (exists data, outcome (iteration w attempt s) = Return (inl data))
  \/ (exists e, outcome (iteration w attempt s) = Return (inr e)
                /\ renderable e = true).
Proof.
  destruct (iteration_run w attempt s) as (_ & _ & _ & Hrun).
  destruct (attemptError _) as [e|] eqn:He.
  - right. exists e. split; [apply Hrun|].
    now apply attemptError_renderable in He.
  - left. destruct Hrun as (status & data & _ & _ & Ho & _). now exists data.
Qed.

Lemma raises_retryLoop attempts :
  forall lastError,
    (forall e, lastError = Some e -> renderable e = true) ->
    raises fine (retryLoop w attempts lastError).
Proof.
  induction attempts as [|attempt rest IH]; intros lastError Hlast;
    cbn [retryLoop].
  - apply raises_throw. destruct lastError as [e|]; [now apply Hlast|].
    reflexivity.
  - intros s e.
    destruct (iteration_outcome attempt s) as [(data & Ho)|(e' & Ho & He')];
      rewrite (bind_returns _ _ _ _ Ho); cbn [outcome ret].
    + discriminate.
    + apply IH. now intros e0 [= <-].
Qed.

Lemma raises_authorize : raises fine (authorize w).
Proof.
  unfold authorize, cacheLookup, networkStage, getFromCache, clearCache,
    getItem, removeItem, Date_now.
  repeat first [ apply raises_log
               | apply raises_retryLoop; discriminate
               | raises_step ].
Qed.

Hypothesis Hcivil : civilHooks (hooks w).

Lemma raises_startBody : raises fine (startBody w).
Proof.
  destruct Hcivil as (Hinit & Hrender & _).
  unfold startBody, waitForDOM, suspend, readAuthData.
  repeat first [ apply raises_authorize | apply raises_log
               | apply raises_track
               | apply raises_call; first [apply Hinit | apply Hrender]
               | raises_step ].
Qed.

Lemma raises_stopBody : raises fine (stopBody w).
Proof.
  destruct Hcivil as (_ & _ & Hdestroy & _).
  unfold stopBody.
  repeat first [ apply raises_log | apply raises_call; exact Hdestroy
               | raises_step ].
Qed.

Lemma raises_reloadBody : raises fine (reloadBody w).
Proof.
  destruct Hcivil as (_ & Hrender & Hdestroy & Hupdate).
  unfold reloadBody, readAuthData, clearCache, removeItem.
  repeat first [ apply raises_authorize | apply raises_log
               | apply raises_call;
                 first [ exact Hdestroy | apply Hrender
                       | apply (Hupdate _ _ eq_refl) ]
               | raises_step ].
Qed.

Lemma renderable_reportable e : renderable e = true -> reportable w e.
Proof.
  intros He. right. unfold errorText, rendered.
  destruct e as [message|isError [|text|e'] [text'|e'']];
    try discriminate; cbn;
    destruct (sdk w); try destruct isError; try destruct (falsy _); eauto.
Qed.

Lemma boundary_returns body message s :
  raises fine body ->
  outcome (try_catch body (fun error => handleError w message error) s)
  = Return tt.
Proof.
  intros Hbody. destruct (boundary w body message s) as (H1 & H2).
  destruct (outcome (body s)) as [[]|e] eqn:Ho.
  - now rewrite H1.
  - destruct (H2 e eq_refl) as (_ & Hrep & _).
    apply Hrep, renderable_reportable. now apply (Hbody s).
Qed.

End Renderable.


